(** * The generic CRUD base service (base.service.ts), embedded in Rocq

    [BaseService<T>] chains four injected dependencies around the calls of a
    document model: the cache service, the activity-log service, the event
    emitter and the console.  The embedding keeps the code's shape: every
    method is a computation in a state-and-exception monad over a [world]
    that holds the state of the dependencies, and every call that leaves the
    class is recorded in a trace. *)

From stdpp Require Import base option list strings gmap fin_maps.
From Stdlib Require Import ZArith.

Local Open Scope Z_scope.
Local Open Scope string_scope.

(** ** Data *)

(** JavaScript values that occur as fields of entities, as filters and as
    the [changes] payload of the audit log. *)
#[warnings="-register-all"]
Inductive json :=
| JUndefined
| JNull
| JBool (b : bool)
| JNum (n : Z)
| JStr (s : string)
| JDate (t : Z)
| JObj (fields : list (string * json)).

(** An entity (the type parameter [T], [Partial<T>]) is an object: its
    fields in insertion order. *)
Abbreviation doc := (list (string * json)).

(** JavaScript truthiness, as tested by [if (x)]. *)
Definition truthy (v : json) : bool :=
  match v with
  | JUndefined | JNull => false
  | JBool b => b
  | JNum n => negb (Z.eqb n 0)
  | JStr s => negb (String.eqb s "")
  | JDate _ | JObj _ => true
  end.

(** [d[k]] *)
Fixpoint get_field (k : string) (d : doc) : option json :=
  match d with
  | [] => None
  | (k', v) :: r => if String.eqb k' k then Some v else get_field k r
  end.

(** [d[k] = v]: an existing key keeps its place, a new one goes last. *)
Fixpoint set_field (k : string) (v : json) (d : doc) : doc :=
  match d with
  | [] => [(k, v)]
  | (k', v') :: r =>
      if String.eqb k' k then (k, v) :: r else (k', v') :: set_field k v r
  end.

(** The fields of [upd] written over [d], one after the other. *)
Definition assign_fields (upd d : doc) : doc :=
  foldl (λ acc kv, set_field kv.1 kv.2 acc) d upd.

(** [v !== undefined] *)
Definition defined (v : json) : bool :=
  match v with
  | JUndefined => false
  | _ => true
  end.

(** The fields of [d] that hold a value: mongoose leaves the keys whose
    value is undefined out of an update. *)
Definition strip_undefined (d : doc) : doc :=
  List.filter (λ kv : string * json, defined kv.2) d.


(** Modelled from the spec: base.interface.ts, which declares [IUser], is
    missing.  The service reads one field of it, [userId], and tests it for
    truthiness. *)
Record IUser := { userId : json }.

Abbreviation user := (option IUser).

(** [user?.userId] *)
Definition userId_opt (u : user) : json :=
  match u with
  | Some x => userId x
  | None => JUndefined
  end.

(** What the service returns from the read operations and keeps in the
    cache: an entity, a list of entities, or a page of results
    [{ data, total, page, limit }].  All three are objects, hence truthy:
    [if (cached)] is the test that the lookup gave an entry. *)
Inductive value :=
| VDoc (d : doc)
| VDocs (l : list doc)
| VPage (data : list doc) (total page limit : Z).

Record audit_entry := {
  action : string;
  documentId : string;
  collection : string;
  actor : user;
  changes : option json;
}.

Record event := {
  ev_name : string;
  ev_entity : option doc;
  ev_user : user;
}.

(** The calls that leave the class. *)
Inductive call :=
| DbSave (entity : doc)
| DbFindById (id : string)
| DbFindByIdAndUpdate (id : string) (upd : doc)
| DbFindByIdAndDelete (id : string)
| DbCountDocuments (condition : json)
| DbFind (condition : json) (skip limit : Z) (sort : doc)
| CacheGet (key : string)
| CacheSet (key : string) (v : value)
| CacheDel (pattern : string)
| AuditLog (e : audit_entry)
| Emit (ev : event)
| ConsoleError (msg : string).

Inductive exn :=
| BadRequestException (msg : string)
| NotFoundException (msg : string)
| InternalServerErrorException (msg : string)
| Error (msg : string).

Inductive outcome (A : Type) :=
| Ok (a : A)
| Throw (e : exn).
Arguments Ok {A} a.
Arguments Throw {A} e.

(** ** The world: the state of the dependencies *)

Record world := World {
  db : gmap string doc;          (* the collection, by _id *)
  cache : gmap string value;
  auditLog : list audit_entry;   (* entries the activity log accepted *)
  events : list event;           (* events handed to the emitter *)
  console : list string;
  now : Z;                       (* new Date() *)
  trace : list call;             (* every call issued, oldest first *)
}.

Definition set_db (f : gmap string doc → gmap string doc) (w : world) : world :=
  World (f (db w)) (cache w) (auditLog w) (events w) (console w) (now w) (trace w).
Definition set_cache (f : gmap string value → gmap string value) (w : world) : world :=
  World (db w) (f (cache w)) (auditLog w) (events w) (console w) (now w) (trace w).
Definition set_auditLog (f : list audit_entry → list audit_entry) (w : world) : world :=
  World (db w) (cache w) (f (auditLog w)) (events w) (console w) (now w) (trace w).
Definition set_events (f : list event → list event) (w : world) : world :=
  World (db w) (cache w) (auditLog w) (f (events w)) (console w) (now w) (trace w).
Definition set_console (f : list string → list string) (w : world) : world :=
  World (db w) (cache w) (auditLog w) (events w) (f (console w)) (now w) (trace w).
Definition record_call (c : call) (w : world) : world :=
  World (db w) (cache w) (auditLog w) (events w) (console w) (now w) (trace w ++ [c]).

(** ** The monad of async methods *)

Definition M (A : Type) : Type := world → outcome A * world.

#[global] Instance M_ret : MRet M := λ A a w, (Ok a, w).
#[global] Instance M_bind : MBind M := λ A B f m w,
  match m w with
  | (Ok a, w') => f a w'
  | (Throw e, w') => (Throw e, w')
  end.

#[global] Instance M_fmap : FMap M := λ A B f m, a ← m; mret (f a).

Definition throw {A} (e : exn) : M A := λ w, (Throw e, w).

(** [try { body } catch (error) { handler }] *)
Definition try_catch {A} (body : M A) (handler : exn → M A) : M A := λ w,
  match body w with
  | (Ok a, w') => (Ok a, w')
  | (Throw e, w') => handler e w'
  end.

Definition gets {A} (f : world → A) : M A := λ w, (Ok (f w), w).
Definition modify (f : world → world) : M unit := λ w, (Ok tt, f w).

(** ** What the platform decides

    Library behaviour that base.service.ts relies on and does not define:
    mongoose's identifier test, its cast of an identifier string to an
    ObjectId and its query evaluation, the driver's identifier generation,
    the string conversions of template literals, and the names carried by
    the injected model. *)
Class Platform := {
  isValidObjectId : string → bool;
  (* the ObjectId that a valid identifier string is cast to, as
     [toString()] spells it: the key of the document in the collection *)
  castObjectId : string → string;
  JSON_stringify : json → string;
  number_toString : Z → string;
  newObjectId : gmap string doc → string;
  countMatching : json → gmap string doc → Z;
  findMatching : json → Z → Z → doc → gmap string doc → list doc;
  collectionName : string;       (* this.model.collection.name *)
  modelName : string;            (* this.model.modelName *)
}.

(** The lifecycle hooks, which a subclass may override. *)
Class Hooks := {
  beforeCreate : doc → user → M doc;
  afterCreate : doc → user → M unit;
  beforeUpdate : string → doc → user → M doc;
  afterUpdate : doc → user → M unit;
  beforeRemove : option doc → user → M unit;
  afterRemove : option doc → user → M unit;
  onView : list doc → user → M (list doc);
  onFinding : json → user → M json;
}.

(** The hooks as [BaseService] defines them. *)
Definition BaseHooks : Hooks := {|
  beforeCreate data _ := mret data;
  afterCreate _ _ := mret tt;
  beforeUpdate _ data _ := mret data;
  afterUpdate _ _ := mret tt;
  beforeRemove _ _ := mret tt;
  afterRemove _ _ := mret tt;
  onView data _ := mret data;
  onFinding condition _ := mret condition;
|}.

(** [entity._id.toString()]; a document built by the model always carries
    its [_id]. *)
Definition id_string (entity : doc) : string :=
  match get_field "_id" entity with
  | Some (JStr s) => s
  | _ => ""
  end.

(** [Some p] when the pattern is [p*]. *)
Definition star_prefix (pattern : string) : option string :=
  let n := String.length pattern in
  if String.eqb (String.substring (n - 1)%nat 1 pattern) "*"
  then Some (String.substring 0 (n - 1)%nat pattern)
  else None.

(** The keys that a deletion pattern covers: the key itself, or every key
    that starts with [p] when the pattern is [p*]. *)
Definition key_matches (pattern key : string) : bool :=
  match star_prefix pattern with
  | Some p => String.prefix p key
  | None => String.eqb pattern key
  end.

Section Service.
Context {P : Platform}.

(** Which calls are rejected by the dependency they go to, and with what
    error: a database that is down, an activity log that refuses the
    entry, an emitter that was never injected. *)
Variable faults : call → option exn.

(** A call of a dependency: it is recorded, then it either rejects or
    takes effect. *)
Definition external {A} (c : call) (effect : M A) : M A := λ w,
  match faults c with
  | Some e => (Throw e, record_call c w)
  | None => effect (record_call c w)
  end.

(** *** The document model (mongoose [Model<T>]) *)

(** The document that [new this.model(data)] builds.  An [_id] that the
    data carries is kept, cast to an ObjectId; without one (the key is
    absent or undefined) the document gets a fresh [_id].  An [_id] that is
    no valid identifier string makes the document invalid, which is
    written here as a document without [_id]: [save] refuses it. *)
Definition new_document (data : doc) (stored : gmap string doc) : doc :=
  match get_field "_id" data with
  | None | Some JUndefined => set_field "_id" (JStr (newObjectId stored)) data
  | Some (JStr s) =>
      if isValidObjectId s
      then set_field "_id" (JStr (castObjectId s)) data
      else set_field "_id" JUndefined data
  | Some _ => set_field "_id" JUndefined data
  end.

(** [new this.model(data)] *)
Definition model_new (data : doc) : M doc :=
  gets (λ w, new_document data (db w)).

(** [entity.save()]: the document is validated, then inserted under its
    [_id]. *)
Definition entity_save (entity : doc) : M unit :=
  external (DbSave entity) (λ w,
    match get_field "_id" entity with
    | Some (JStr i) =>
        match db w !! i with
        | Some _ => (Throw (Error "E11000 duplicate key error"), w)
        | None => (Ok tt, set_db (insert i entity) w)
        end
    | _ => (Throw (Error "document must have an _id before saving"), w)
    end).

(** [this.model.findById(id).exec()]: mongoose casts the identifier to an
    ObjectId before it queries. *)
Definition findById (id : string) : M (option doc) :=
  external (DbFindById id) (gets (λ w, db w !! castObjectId id)).

(** [this.model.findByIdAndUpdate(id, upd, { new: true }).exec()]: the
    identifier is cast, and the keys of [upd] whose value is undefined are
    left out of the update. *)
Definition findByIdAndUpdate (id : string) (upd : doc) : M (option doc) :=
  external (DbFindByIdAndUpdate id upd) (λ w,
    match db w !! castObjectId id with
    | Some d =>
        let d' := assign_fields (strip_undefined upd) d in
        (Ok (Some d'), set_db (insert (castObjectId id) d') w)
    | None => (Ok None, w)
    end).

(** [this.model.findByIdAndDelete(id).exec()] *)
Definition findByIdAndDelete (id : string) : M (option doc) :=
  external (DbFindByIdAndDelete id) (λ w,
    match db w !! castObjectId id with
    | Some d => (Ok (Some d), set_db (delete (castObjectId id)) w)
    | None => (Ok None, w)
    end).

(** [this.model.countDocuments(condition).exec()] *)
Definition countDocuments (condition : json) : M Z :=
  external (DbCountDocuments condition)
    (gets (λ w, countMatching condition (db w))).

(** [this.model.find(condition).skip(skip).limit(limit).sort(sort).exec()] *)
Definition find (condition : json) (skip limit : Z) (sort : doc)
  : M (list doc) :=
  external (DbFind condition skip limit sort)
    (gets (λ w, findMatching condition skip limit sort (db w))).

(** *** The cache service *)

(** Modelled from the spec: src/cache/cache.service.ts is missing; the
    spec gives it "a key-based cache get/set/delete interface".  A lookup
    gives the entry or null. *)
Definition getCached (key : string) : M (option value) :=
  external (CacheGet key) (gets (λ w, cache w !! key)).

(** Modelled from the spec: the set of the cache interface. *)
Definition setCached (key : string) (v : value) : M unit :=
  external (CacheSet key v) (modify (set_cache (insert key v))).

(** Modelled from the spec: the delete of the cache interface, which
    "invalidates related cache keys": the key itself, or every key that
    starts with [p] when the pattern is [p*]. *)
Definition delCache (pattern : string) : M unit :=
  external (CacheDel pattern)
    (modify (set_cache
       (filter (λ kv : string * value, key_matches pattern kv.1 = false)))).

(** *** The activity log, the event emitter, the console *)

(** Modelled from the spec: activityLog.service.ts is missing; the spec
    gives it "an audit-log append interface". *)
Definition activityLogService_logActivity
    (action documentId collection : string) (u : user)
    (changes : option json) : M unit :=
  let e := Build_audit_entry action documentId collection u changes in
  external (AuditLog e) (modify (set_auditLog (λ l, (l ++ [e])%list))).

(** [this.eventEmitter.emit(name, { entity, user })].  The field is
    declared without an injection decorator and is not set by the
    constructor: where nothing else provides the emitter, the call throws,
    which is a fault of [Emit]. *)
Definition eventEmitter_emit (name : string) (entity : option doc)
    (u : user) : M unit :=
  let ev := Build_event name entity u in
  external (Emit ev) (modify (set_events (λ l, (l ++ [ev])%list))).

(** [console.error(msg, error)] *)
Definition console_error (msg : string) : M unit :=
  modify (λ w, set_console (λ l, (l ++ [msg])%list) (record_call (ConsoleError msg) w)).

(** *** BaseService *)

Context {H : Hooks}.

Definition logActivity (action documentId : string) (u : user)
    (changes : option json) : M unit :=
  try_catch
    (activityLogService_logActivity action documentId collectionName u changes)
    (λ error, console_error "Create log system error").

Definition create (data : doc) (u : user) : M doc :=
  try_catch
    (let data :=
       if truthy (userId_opt u)
       then set_field "createdBy" (userId_opt u) data
       else data in
     processedData ← beforeCreate data u;
     entity ← model_new processedData;
     entity_save entity;;
     afterCreate entity u;;
     logActivity "create" (id_string entity) u (Some (JObj data));;
     delCache (collectionName ++ "-findAll-*");;
     eventEmitter_emit (modelName ++ ".saved") (Some entity) u;;
     mret entity)
    (λ error, throw (InternalServerErrorException "Error creating entity")).

Definition update (id : string) (data : doc) (u : user) : M doc :=
  if negb (isValidObjectId id)
  then throw (BadRequestException "Invalid ID format")
  else
    try_catch
      (let data :=
         if truthy (userId_opt u)
         then set_field "updatedBy" (userId_opt u) data
         else data in
       processedData ← beforeUpdate id data u;
       entity ← findByIdAndUpdate id processedData;
       match entity with
       | None =>
           throw (NotFoundException ("Entity with id " ++ id ++ " not found"))
       | Some entity =>
           afterUpdate entity u;;
           logActivity "update" id u (Some (JObj data));;
           delCache (collectionName ++ "-findOne-" ++ id);;
           delCache (collectionName ++ "-findAll-*");;
           eventEmitter_emit (modelName ++ ".saved") (Some entity) u;;
           mret entity
       end)
      (λ error, throw (InternalServerErrorException "Error updating entity")).

Definition remove (id : string) (u : user) : M unit :=
  if negb (isValidObjectId id)
  then throw (BadRequestException "Invalid ID format")
  else
    try_catch
      (entity ← findById id;
       beforeRemove entity u;;
       result ← findByIdAndDelete id;
       match result with
       | None =>
           throw (NotFoundException ("Entity with id " ++ id ++ " not found"))
       | Some _ =>
           afterRemove entity u;;
           logActivity "delete" id u
             (Some (from_option JObj JNull entity));;
           delCache (collectionName ++ "-findOne-" ++ id);;
           delCache (collectionName ++ "-findAll-*");;
           eventEmitter_emit (modelName ++ ".deleted") entity u
       end)
      (λ error, throw (InternalServerErrorException "Error removing entity")).

Definition findAll (filter : json) (page limit : Z) (sort : doc) (u : user)
  : M value :=
  condition ← onFinding filter u;
  let cacheKey :=
    collectionName ++ "-findAll-" ++ JSON_stringify condition ++ "-"
    ++ number_toString page ++ "-" ++ number_toString limit ++ "-"
    ++ JSON_stringify (JObj sort) in
  cachedResult ← getCached cacheKey;
  match cachedResult with
  | Some cached => mret cached
  | None =>
      let skip := (page - 1) * limit in
      try_catch
        (total ← countDocuments condition;
         data ← find condition skip limit sort;
         processedData ← onView data u;
         let result := VPage processedData total page limit in
         setCached cacheKey result;;
         logActivity "viewAll" "" u (Some condition);;
         mret result)
        (λ error,
           throw (InternalServerErrorException "Error fetching entities"))
  end.

(** In [findOne] the call of [onView] is not awaited: [data] is the
    promise, [data[0]] is undefined, and the method returns the promise
    itself.  The caller receives what the promise settles to, the list
    that the hook resolves with or the error it rejects with; that
    happens outside the [try] block. *)
Definition findOne (id : string) (u : user) : M value :=
  if negb (isValidObjectId id)
  then throw (BadRequestException "Invalid ID format")
  else
    let cacheKey := collectionName ++ "-findOne-" ++ id in
    cachedEntity ← getCached cacheKey;
    match cachedEntity with
    | Some cached => mret cached
    | None =>
        data ← try_catch
          (entity ← findById id;
           match entity with
           | None =>
               throw (NotFoundException
                        ("Entity with id " ++ id ++ " not found"))
           | Some entity =>
               setCached cacheKey (VDoc entity);;
               logActivity "view" id u None;;
               mret (onView [entity] u)
           end)
          (λ error,
             throw (InternalServerErrorException "Error fetching entity"));
        settled ← data;
        mret (VDocs settled)
    end.

Definition search (query : string) (page limit : Z) (u : user) : M value :=
  try_catch
    (let filter := JObj [("$text", JObj [("$search", JStr query)])] in
     result ← findAll filter page limit [] u;
     logActivity "search" "" u (Some (JObj [("query", JStr query)]));;
     mret result)
    (λ error, throw (InternalServerErrorException "Error searching entities")).

Definition softRemove (id : string) (u : user) : M unit :=
  if negb (isValidObjectId id)
  then throw (BadRequestException "Invalid ID format")
  else
    try_catch
      (date ← gets now;
       entity ← findByIdAndUpdate id
         [("isDeleted", JBool true);
          ("deletedBy", userId_opt u);
          ("deletedAt", JDate date)];
       match entity with
       | None =>
           throw (NotFoundException ("Entity with id " ++ id ++ " not found"))
       | Some _ => logActivity "softDelete" id u None
       end)
      (λ error,
         throw (InternalServerErrorException "Error soft-deleting entity")).

(** The seven operations behind one entry point. *)
Inductive request :=
| Create (data : doc) (u : user)
| Update (id : string) (data : doc) (u : user)
| Remove (id : string) (u : user)
| SoftRemove (id : string) (u : user)
| FindAll (filter : json) (page limit : Z) (sort : doc) (u : user)
| FindOne (id : string) (u : user)
| Search (query : string) (page limit : Z) (u : user).

Inductive reply :=
| Entity (d : doc)
| Void
| Found (v : value).

Definition run (r : request) : M reply :=
  match r with
  | Create data u => Entity <$> create data u
  | Update id data u => Entity <$> update id data u
  | Remove id u => remove id u;; mret Void
  | SoftRemove id u => softRemove id u;; mret Void
  | FindAll filter page limit sort u => Found <$> findAll filter page limit sort u
  | FindOne id u => Found <$> findOne id u
  | Search query page limit u => Found <$> search query page limit u
  end.

End Service.

(** ** Observations on a run *)

(** The keys under which the read operations cache their results. *)
Definition findOne_cacheKey {P : Platform} (id : string) : string :=
  collectionName ++ "-findOne-" ++ id.

Definition findAll_cacheKey {P : Platform} (condition : json)
    (page limit : Z) (sort : doc) : string :=
  collectionName ++ "-findAll-" ++ JSON_stringify condition ++ "-"
  ++ number_toString page ++ "-" ++ number_toString limit ++ "-"
  ++ JSON_stringify (JObj sort).

(** The filter that [search] hands to [findAll]. *)
Definition text_filter (query : string) : json :=
  JObj [("$text", JObj [("$search", JStr query)])].

(** The calls issued between two worlds of one run. *)
Definition calls_during (w w' : world) : list call :=
  drop (length (trace w)) (trace w').

(** The audit writes among some calls, accepted or not. *)
Definition audit_writes (t : list call) : list audit_entry :=
  omap (λ c, match c with AuditLog e => Some e | _ => None end) t.

(** The faults of a platform whose activity log accepts every entry. *)
Definition audit_never_fails (faults : call → option exn) : call → option exn :=
  λ c, match c with AuditLog _ => None | _ => faults c end.

(** Two worlds with the same collection, cache, emitted events and clock:
    they differ at most in the audit log, the console and the trace. *)
Definition same_service_state (w1 w2 : world) : Prop :=
  db w1 = db w2 ∧ cache w1 = cache w2 ∧ events w1 = events w2 ∧ now w1 = now w2.

(** Two outcomes of the same kind: the same error, or results related by
    [R]. *)
Definition outcome_rel {A} (R : A → A → Prop) (o1 o2 : outcome A) : Prop :=
  match o1, o2 with
  | Ok a1, Ok a2 => R a1 a2
  | Throw e1, Throw e2 => e1 = e2
  | _, _ => False
  end.

(** Two computations that cannot be told apart through the service state:
    from worlds with the same service state they reach worlds with the same
    service state, with outcomes of the same kind. *)
Definition agree_on {A} (R : A → A → Prop) (m1 m2 : M A) : Prop :=
  ∀ w1 w2, same_service_state w1 w2 →
    outcome_rel R (m1 w1).1 (m2 w2).1 ∧
    same_service_state (m1 w1).2 (m2 w2).2.

Definition agree {A} (m1 m2 : M A) : Prop := agree_on eq m1 m2.

(** Hooks that neither read nor depend on the audit log, the console or
    the trace. *)
Definition audit_blind (H : Hooks) : Prop :=
  (∀ d u, agree (beforeCreate d u) (beforeCreate d u)) ∧
  (∀ e u, agree (afterCreate e u) (afterCreate e u)) ∧
  (∀ id d u, agree (beforeUpdate id d u) (beforeUpdate id d u)) ∧
  (∀ e u, agree (afterUpdate e u) (afterUpdate e u)) ∧
  (∀ e u, agree (beforeRemove e u) (beforeRemove e u)) ∧
  (∀ e u, agree (afterRemove e u) (afterRemove e u)) ∧
  (∀ l u, agree (onView l u) (onView l u)) ∧
  (∀ c u, agree (onFinding c u) (onFinding c u)).

(** The action under which each operation is to appear in the audit log. *)
Definition action_name (r : request) : string :=
  match r with
  | Create _ _ => "create"
  | Update _ _ _ => "update"
  | Remove _ _ => "delete"
  | SoftRemove _ _ => "softDelete"
  | FindAll _ _ _ _ _ => "viewAll"
  | FindOne _ _ => "view"
  | Search _ _ _ _ => "search"
  end.

(** The actions that a successful call, started in [w] with the hooks of
    [BaseService], writes to the audit log. *)
Definition audited_actions {P : Platform} (r : request) (w : world)
  : list string :=
  match r with
  | FindAll filter page limit sort _ =>
      match cache w !! findAll_cacheKey filter page limit sort with
      | Some _ => []
      | None => ["viewAll"]
      end
  | FindOne id _ =>
      match cache w !! findOne_cacheKey id with
      | Some _ => []
      | None => ["view"]
      end
  | Search query page limit _ =>
      match cache w !! findAll_cacheKey (text_filter query) page limit [] with
      | Some _ => ["search"]
      | None => ["viewAll"; "search"]
      end
  | _ => [action_name r]
  end.

(** ** The operations with the hook calls removed

    For the comparison with a subclass that overrides no hook: every
    [await this.hook(x, ...)] is replaced by its argument [x], and the hooks
    that return nothing are dropped.  In [findOne] the line becomes
    [const data = [entity]], so that [data[0]] is the entity. *)
Module Unhooked.
Section Unhooked.
Context {P : Platform}.
Variable faults : call → option exn.

Definition create (data : doc) (u : user) : M doc :=
  try_catch
    (let data :=
       if truthy (userId_opt u)
       then set_field "createdBy" (userId_opt u) data
       else data in
     let processedData := data in
     entity ← model_new processedData;
     entity_save faults entity;;
     logActivity faults "create" (id_string entity) u (Some (JObj data));;
     delCache faults (collectionName ++ "-findAll-*");;
     eventEmitter_emit faults (modelName ++ ".saved") (Some entity) u;;
     mret entity)
    (λ error, throw (InternalServerErrorException "Error creating entity")).

Definition update (id : string) (data : doc) (u : user) : M doc :=
  if negb (isValidObjectId id)
  then throw (BadRequestException "Invalid ID format")
  else
    try_catch
      (let data :=
         if truthy (userId_opt u)
         then set_field "updatedBy" (userId_opt u) data
         else data in
       let processedData := data in
       entity ← findByIdAndUpdate faults id processedData;
       match entity with
       | None =>
           throw (NotFoundException ("Entity with id " ++ id ++ " not found"))
       | Some entity =>
           logActivity faults "update" id u (Some (JObj data));;
           delCache faults (collectionName ++ "-findOne-" ++ id);;
           delCache faults (collectionName ++ "-findAll-*");;
           eventEmitter_emit faults (modelName ++ ".saved") (Some entity) u;;
           mret entity
       end)
      (λ error, throw (InternalServerErrorException "Error updating entity")).

Definition remove (id : string) (u : user) : M unit :=
  if negb (isValidObjectId id)
  then throw (BadRequestException "Invalid ID format")
  else
    try_catch
      (entity ← findById faults id;
       result ← findByIdAndDelete faults id;
       match result with
       | None =>
           throw (NotFoundException ("Entity with id " ++ id ++ " not found"))
       | Some _ =>
           logActivity faults "delete" id u
             (Some (from_option JObj JNull entity));;
           delCache faults (collectionName ++ "-findOne-" ++ id);;
           delCache faults (collectionName ++ "-findAll-*");;
           eventEmitter_emit faults (modelName ++ ".deleted") entity u
       end)
      (λ error, throw (InternalServerErrorException "Error removing entity")).

Definition findAll (filter : json) (page limit : Z) (sort : doc) (u : user)
  : M value :=
  let condition := filter in
  let cacheKey :=
    collectionName ++ "-findAll-" ++ JSON_stringify condition ++ "-"
    ++ number_toString page ++ "-" ++ number_toString limit ++ "-"
    ++ JSON_stringify (JObj sort) in
  cachedResult ← getCached faults cacheKey;
  match cachedResult with
  | Some cached => mret cached
  | None =>
      let skip := (page - 1) * limit in
      try_catch
        (total ← countDocuments faults condition;
         data ← find faults condition skip limit sort;
         let processedData := data in
         let result := VPage processedData total page limit in
         setCached faults cacheKey result;;
         logActivity faults "viewAll" "" u (Some condition);;
         mret result)
        (λ error,
           throw (InternalServerErrorException "Error fetching entities"))
  end.

Definition findOne (id : string) (u : user) : M value :=
  if negb (isValidObjectId id)
  then throw (BadRequestException "Invalid ID format")
  else
    let cacheKey := collectionName ++ "-findOne-" ++ id in
    cachedEntity ← getCached faults cacheKey;
    match cachedEntity with
    | Some cached => mret cached
    | None =>
        try_catch
          (entity ← findById faults id;
           match entity with
           | None =>
               throw (NotFoundException
                        ("Entity with id " ++ id ++ " not found"))
           | Some entity =>
               setCached faults cacheKey (VDoc entity);;
               logActivity faults "view" id u None;;
               let data := [entity] in
               mret (from_option VDoc (VDocs data) (head data))
           end)
          (λ error,
             throw (InternalServerErrorException "Error fetching entity"))
    end.

Definition search (query : string) (page limit : Z) (u : user) : M value :=
  try_catch
    (let filter := JObj [("$text", JObj [("$search", JStr query)])] in
     result ← findAll filter page limit [] u;
     logActivity faults "search" "" u (Some (JObj [("query", JStr query)]));;
     mret result)
    (λ error, throw (InternalServerErrorException "Error searching entities")).

Definition run (r : request) : M reply :=
  match r with
  | Create data u => Entity <$> create data u
  | Update id data u => Entity <$> update id data u
  | Remove id u => remove id u;; mret Void
  | SoftRemove id u => softRemove faults id u;; mret Void
  | FindAll filter page limit sort u => Found <$> findAll filter page limit sort u
  | FindOne id u => Found <$> findOne id u
  | Search query page limit u => Found <$> search query page limit u
  end.

End Unhooked.
End Unhooked.

(** ** A concrete platform, for running the service *)

Module Demo.

Definition is_hex (c : Ascii.ascii) : bool :=
  let n := Ascii.nat_of_ascii c in
  ((48 <=? n) && (n <=? 57) || (97 <=? n) && (n <=? 102)
   || (65 <=? n) && (n <=? 70))%nat.

(** Identifiers are 24 hexadecimal characters. *)
Definition valid_id (s : string) : bool :=
  (String.length s =? 24)%nat && forallb is_hex (String.list_ascii_of_string s).

Definition lower (c : Ascii.ascii) : Ascii.ascii :=
  let n := Ascii.nat_of_ascii c in
  if ((65 <=? n) && (n <=? 90))%nat then Ascii.ascii_of_nat (n + 32) else c.

(** An ObjectId prints its hexadecimal digits in lower case. *)
Fixpoint canonical (s : string) : string :=
  match s with
  | EmptyString => EmptyString
  | String c r => String (lower c) (canonical r)
  end.

Fixpoint digits (fuel : nat) (n : N) (acc : string) : string :=
  match fuel with
  | O => acc
  | S fuel' =>
      let d := String (Ascii.ascii_of_N (48 + n mod 10)) acc in
      if (n <? 10)%N then d else digits fuel' (n / 10)%N d
  end.

Definition show_Z (z : Z) : string :=
  match z with
  | Z0 => "0"
  | Zpos p => digits (Pos.size_nat p) (Npos p) ""
  | Zneg p => "-" ++ digits (Pos.size_nat p) (Npos p) ""
  end.

Definition quoted (s : string) : string :=
  let q := String (Ascii.ascii_of_nat 34) EmptyString in q ++ s ++ q.

Fixpoint stringify (v : json) : string :=
  match v with
  | JUndefined => "undefined"
  | JNull => "null"
  | JBool true => "true"
  | JBool false => "false"
  | JNum n => show_Z n
  | JStr s => quoted s
  | JDate t => show_Z t
  | JObj fields =>
      "{" ++ (fix members (l : list (string * json)) : string :=
                match l with
                | [] => ""
                | [(k, x)] => quoted k ++ ":" ++ stringify x
                | (k, x) :: r => quoted k ++ ":" ++ stringify x ++ "," ++ members r
                end) fields ++ "}"
  end.

Definition scalar_eqb (a b : json) : bool :=
  match a, b with
  | JNull, JNull => true
  | JBool x, JBool y => Bool.eqb x y
  | JNum x, JNum y => Z.eqb x y
  | JStr x, JStr y => String.eqb x y
  | JDate x, JDate y => Z.eqb x y
  | _, _ => false
  end.

Definition contains (needle hay : string) : bool :=
  match String.index 0 needle hay with
  | Some _ => true
  | None => false
  end.

(** The filters the examples use: equality on fields, and
    [{ $text: { $search: q } }] as a search of [q] in the string fields. *)
Definition matches (condition : json) (d : doc) : bool :=
  match condition with
  | JObj clauses =>
      forallb (λ kv : string * json,
        if String.eqb kv.1 "$text" then
          match kv.2 with
          | JObj [(_, JStr q)] =>
              existsb (λ f : string * json,
                match f.2 with JStr s => contains q s | _ => false end) d
          | _ => false
          end
        else
          match get_field kv.1 d with
          | Some x => scalar_eqb x kv.2
          | None => false
          end) clauses
  | _ => true
  end.

Definition matching (condition : json) (m : gmap string doc) : list doc :=
  List.filter (matches condition) (snd <$> map_to_list m).

Definition object_id (m : gmap string doc) : string :=
  let n := show_Z (Z.of_nat (size m)) in
  String.substring 0 (24 - String.length n) "650000000000000000000000" ++ n.

#[export] Instance platform : Platform := {|
  isValidObjectId := valid_id;
  castObjectId := canonical;
  JSON_stringify := stringify;
  number_toString := show_Z;
  newObjectId := object_id;
  countMatching condition m := Z.of_nat (length (matching condition m));
  findMatching condition skip limit sort m :=
    take (Z.to_nat limit) (drop (Z.to_nat skip) (matching condition m));
  collectionName := "employees";
  modelName := "Employee";
|}.

(** No dependency ever fails. *)
Definition healthy : call → option exn := λ _, None.

(** The activity log refuses every entry; the rest works. *)
Definition audit_down : call → option exn := λ c,
  match c with
  | AuditLog _ => Some (Error "activity log unavailable")
  | _ => None
  end.

Definition alice : user := Some {| userId := JStr "u1" |}.

Definition id1 : string := "6500000000000000000000a1".
Definition id9 : string := "6500000000000000000000a9".

Definition ann : doc := [("_id", JStr id1); ("name", JStr "Ann")].

Definition empty_world : world :=
  World ∅ ∅ [] [] [] 1700000000 [].

(** One employee in the collection, nothing cached. *)
Definition w_ann : world :=
  World {[ id1 := ann ]} ∅ [] [] [] 1700000000 [].

(** The same, after a [findOne] has cached the employee. *)
Definition w_ann_cached : world :=
  World {[ id1 := ann ]} {[ "employees-findOne-6500000000000000000000a1" := VDoc ann ]}
        [] [] [] 1700000000 [].

(** The same, after a [findAll] of the first page has been cached. *)
Definition w_page_cached : world :=
  World {[ id1 := ann ]}
        {[ findAll_cacheKey (JObj []) 1 10 [] := VPage [ann] 1 1 10 ]}
        [] [] [] 1700000000 [].

End Demo.

(** ** Statements about runs *)

(** A call that is neither a cache invalidation nor an event emission. *)
Definition no_invalidation_nor_event (c : call) : Prop :=
  match c with
  | CacheDel _ | Emit _ => False
  | _ => True
  end.

(** A write to the collection that carries [v] in the field [field]; other
    calls pass. *)
Definition carries (field : string) (v : json) (c : call) : Prop :=
  match c with
  | DbSave e => get_field field e = Some v
  | DbFindByIdAndUpdate _ upd => get_field field upd = Some v
  | _ => True
  end.

(** No cached page of [findAll] results is left. *)
Definition findAll_keys_gone {P : Platform} (w : world) : Prop :=
  ∀ key, String.prefix (collectionName ++ "-findAll-") key = true →
         cache w !! key = None.

(** Every successful run of [r] from [w] writes one audit entry, under the
    action of [r]. *)
Definition audited_once {P : Platform} (faults : call → option exn)
    (r : request) (w : world) : Prop :=
  ∀ rep w', run faults (H:=BaseHooks) r w = (Ok rep, w') →
    action <$> audit_writes (calls_during w w') = [action_name r].

(** ** The constructor and the subclass *)

(** [constructor(model)]: a service refuses to be built without its
    model.  The model is what the platform record carries. *)
Definition BaseService_new (model : option Platform) : outcome Platform :=
  match model with
  | None =>
      Throw (InternalServerErrorException
               "Model not injected properly in BaseService")
  | Some m => Ok m
  end.

(** [EmployeeService]: its constructor hands the employee model to
    [super], and the class overrides no hook. *)
Definition EmployeeService_new (employeeModel : option Platform)
  : outcome Platform :=
  BaseService_new employeeModel.

Definition EmployeeService_hooks : Hooks := BaseHooks.

(** ** Subclasses that override a hook, for the examples *)

Module Overrides.

(** [onView] refuses the view. *)
Definition forbidding_view : Hooks := {|
  beforeCreate data _ := mret data;
  afterCreate _ _ := mret tt;
  beforeUpdate _ data _ := mret data;
  afterUpdate _ _ := mret tt;
  beforeRemove _ _ := mret tt;
  afterRemove _ _ := mret tt;
  onView _ _ := throw (Error "forbidden");
  onFinding condition _ := mret condition;
|}.

(** The hooks that run before the store is touched refuse. *)
Definition vetoing : Hooks := {|
  beforeCreate _ _ := throw (Error "not allowed");
  afterCreate _ _ := mret tt;
  beforeUpdate _ _ _ := throw (Error "not allowed");
  afterUpdate _ _ := mret tt;
  beforeRemove _ _ := throw (Error "not allowed");
  afterRemove _ _ := mret tt;
  onView data _ := mret data;
  onFinding _ _ := throw (Error "not allowed");
|}.

(** The hooks that run after the store was touched fail. *)
Definition failing_after : Hooks := {|
  beforeCreate data _ := mret data;
  afterCreate _ _ := throw (Error "mail server down");
  beforeUpdate _ data _ := mret data;
  afterUpdate _ _ := throw (Error "mail server down");
  beforeRemove _ _ := mret tt;
  afterRemove _ _ := throw (Error "mail server down");
  onView data _ := mret data;
  onFinding condition _ := mret condition;
|}.

(** The emitter was never injected: every [emit] throws. *)
Definition no_emitter : call → option exn := λ c,
  match c with
  | Emit _ => Some (Error "Cannot read properties of undefined")
  | _ => None
  end.

(** The cache is down: every lookup throws. *)
Definition cache_down : call → option exn := λ c,
  match c with
  | CacheGet _ => Some (Error "cache unavailable")
  | _ => None
  end.

End Overrides.

(** ** Further statements about runs *)

(** The message of the internal-server error of each operation. *)
Definition failure_message (r : request) : string :=
  match r with
  | Create _ _ => "Error creating entity"
  | Update _ _ _ => "Error updating entity"
  | Remove _ _ => "Error removing entity"
  | SoftRemove _ _ => "Error soft-deleting entity"
  | FindAll _ _ _ _ _ => "Error fetching entities"
  | FindOne _ _ => "Error fetching entity"
  | Search _ _ _ _ => "Error searching entities"
  end.

(** The identifier an operation is given, if it takes one. *)
Definition request_id (r : request) : option string :=
  match r with
  | Update id _ _ | Remove id _ | SoftRemove id _ | FindOne id _ => Some id
  | _ => None
  end.

(** The operations whose whole body is one [try] block. *)
Definition wholly_wrapped (r : request) : bool :=
  match r with
  | FindAll _ _ _ _ _ | FindOne _ _ => false
  | _ => true
  end.

(** The operations that end with an [emit]. *)
Definition emits (r : request) : bool :=
  match r with
  | Create _ _ | Update _ _ _ | Remove _ _ => true
  | _ => false
  end.

(** The operations that read. *)
Definition is_read (r : request) : bool :=
  match r with
  | FindAll _ _ _ _ _ | FindOne _ _ | Search _ _ _ _ => true
  | _ => false
  end.

(** The cache key of a read, with the hooks of [BaseService]. *)
Definition read_key {P : Platform} (r : request) : option string :=
  match r with
  | FindAll filter page limit sort _ =>
      Some (findAll_cacheKey filter page limit sort)
  | FindOne id _ => Some (findOne_cacheKey id)
  | Search query page limit _ =>
      Some (findAll_cacheKey (text_filter query) page limit [])
  | _ => None
  end.

(** The events of a successful call: one for [create], [update] and
    [remove], with the entity and the user, none for the others. *)
Definition emitted {P : Platform} (r : request) (rep : reply) (w : world)
  : list event :=
  match r, rep with
  | Create _ u, Entity e => [Build_event (modelName ++ ".saved") (Some e) u]
  | Update _ _ u, Entity e => [Build_event (modelName ++ ".saved") (Some e) u]
  | Remove id u, _ =>
      [Build_event (modelName ++ ".deleted") (db w !! castObjectId id) u]
  | _, _ => []
  end.

(** The data that [create] and [update] hand on, stamped with the user's
    identifier under [field] when there is one. *)
Definition stamped (field : string) (u : user) (data : doc) : doc :=
  if truthy (userId_opt u) then set_field field (userId_opt u) data else data.

(** The audit entry of a successful mutation. *)
Definition audit_of {P : Platform} (r : request) (rep : reply) (w : world)
  : list audit_entry :=
  match r, rep with
  | Create data u, Entity e =>
      [Build_audit_entry "create" (id_string e) collectionName u
         (Some (JObj (stamped "createdBy" u data)))]
  | Update id data u, _ =>
      [Build_audit_entry "update" id collectionName u
         (Some (JObj (stamped "updatedBy" u data)))]
  | Remove id u, _ =>
      [Build_audit_entry "delete" id collectionName u
         (Some (from_option JObj JNull (db w !! castObjectId id)))]
  | SoftRemove id u, _ =>
      [Build_audit_entry "softDelete" id collectionName u None]
  | _, _ => []
  end.

(** * Proofs *)

(** ** The service at work on the example platform *)

Example demo_findAll_key :
  findAll_cacheKey (P:=Demo.platform) (JObj []) 1 10 []
  = "employees-findAll-{}-1-10-{}".
Proof. vm_compute. reflexivity. Qed.

Example demo_show_date : Demo.show_Z 1700000000 = "1700000000".
Proof. vm_compute. reflexivity. Qed.

Example demo_create :
  (create (P:=Demo.platform) (H:=BaseHooks) Demo.healthy
     [("name", JStr "Bob")] Demo.alice Demo.w_ann).1
  = Ok [("name", JStr "Bob"); ("createdBy", JStr "u1");
        ("_id", JStr "650000000000000000000001")].
Proof. vm_compute. reflexivity. Qed.

Example demo_create_calls :
  calls_during Demo.w_ann
    (create (P:=Demo.platform) (H:=BaseHooks) Demo.healthy
       [("name", JStr "Bob")] Demo.alice Demo.w_ann).2
  = let bob := [("name", JStr "Bob"); ("createdBy", JStr "u1");
                ("_id", JStr "650000000000000000000001")] in
    [DbSave bob;
     AuditLog (Build_audit_entry "create" "650000000000000000000001"
                 "employees" Demo.alice
                 (Some (JObj [("name", JStr "Bob"); ("createdBy", JStr "u1")])));
     CacheDel "employees-findAll-*";
     Emit (Build_event "Employee.saved" (Some bob) Demo.alice)].
Proof. vm_compute. reflexivity. Qed.

Example demo_update_missing :
  (update (P:=Demo.platform) (H:=BaseHooks) Demo.healthy
     Demo.id9 [] Demo.alice Demo.w_ann).1
  = Throw (InternalServerErrorException "Error updating entity").
Proof. vm_compute. reflexivity. Qed.

Example demo_findOne_miss_then_hit :
  let first := findOne (P:=Demo.platform) (H:=BaseHooks) Demo.healthy
                 Demo.id1 Demo.alice Demo.w_ann in
  first.1 = Ok (VDocs [Demo.ann]) ∧
  (findOne (P:=Demo.platform) (H:=BaseHooks) Demo.healthy
     Demo.id1 Demo.alice first.2).1 = Ok (VDoc Demo.ann).
Proof. vm_compute. split; reflexivity. Qed.

Example demo_search_with_audit_down :
  let r := search (P:=Demo.platform) (H:=BaseHooks) Demo.audit_down
             "Ann" 1 10 Demo.alice Demo.w_ann in
  r.1 = Ok (VPage [Demo.ann] 1 1 10) ∧
  auditLog r.2 = [] ∧
  console r.2 = ["Create log system error"; "Create log system error"].
Proof. vm_compute. repeat split; reflexivity. Qed.

Example demo_softRemove :
  db (softRemove (P:=Demo.platform) Demo.healthy
        Demo.id1 Demo.alice Demo.w_ann).2 !! Demo.id1
  = Some [("_id", JStr Demo.id1); ("name", JStr "Ann");
          ("isDeleted", JBool true); ("deletedBy", JStr "u1");
          ("deletedAt", JDate 1700000000)].
Proof. vm_compute. reflexivity. Qed.

(** The model keeps an [_id] that the data carries, as the ObjectId it is
    cast to. *)
Example demo_create_keeps_id :
  let res := create (P:=Demo.platform) (H:=BaseHooks) Demo.healthy
               [("_id", JStr "6500000000000000000000B7"); ("name", JStr "Bob")]
               None Demo.w_ann in
  let bob := [("_id", JStr "6500000000000000000000b7"); ("name", JStr "Bob")] in
  res.1 = Ok bob ∧ db res.2 !! "6500000000000000000000b7" = Some bob.
Proof. vm_compute. split; reflexivity. Qed.

(** An identifier names the document of the ObjectId it is cast to,
    however it is spelled. *)
Example demo_remove_other_spelling :
  let res := remove (P:=Demo.platform) (H:=BaseHooks) Demo.healthy
               "6500000000000000000000A1" Demo.alice Demo.w_ann in
  res.1 = Ok tt ∧ db res.2 !! Demo.id1 = None.
Proof. vm_compute. split; reflexivity. Qed.

(** A [softRemove] without a user leaves the stored [deletedBy] as it
    was. *)
Example demo_softRemove_anonymous :
  let w1 := (softRemove (P:=Demo.platform) Demo.healthy
               Demo.id1 Demo.alice Demo.w_ann).2 in
  db (softRemove (P:=Demo.platform) Demo.healthy Demo.id1 None w1).2 !! Demo.id1
  = Some [("_id", JStr Demo.id1); ("name", JStr "Ann");
          ("isDeleted", JBool true); ("deletedBy", JStr "u1");
          ("deletedAt", JDate 1700000000)].
Proof. vm_compute. reflexivity. Qed.

(** ** Running the code symbolically *)

Ltac unfold_service :=
  unfold run, search, create, update, remove, softRemove, findAll, findOne,
    logActivity, activityLogService_logActivity, console_error,
    eventEmitter_emit, getCached, setCached, delCache, model_new, entity_save,
    findById, findByIdAndUpdate, findByIdAndDelete, countDocuments, find,
    external, BaseHooks, beforeCreate, afterCreate, beforeUpdate, afterUpdate,
    beforeRemove, afterRemove, onView, onFinding,
    fmap, M_fmap, mbind, M_bind, mret, M_ret, try_catch, throw, gets, modify in *.

(** Follow a run that is known to have returned: split on every test the
    code makes, innermost first, and drop the branches that threw. *)
Ltac follow faults E :=
  repeat (cbn in E;
    match type of E with
    | (Throw _, _) = (Ok _, _) => discriminate E
    | context [isValidObjectId ?i] =>
        let Eq := fresh "Ev" in destruct (isValidObjectId i) eqn:Eq
    | context [truthy ?x] =>
        let Eq := fresh "Et" in destruct (truthy x) eqn:Eq
    | context [faults ?c] =>
        let Eq := fresh "Ef" in destruct (faults c) eqn:Eq
    | context [match get_field "_id" ?e with _ => _ end] =>
        let Eq := fresh "Ei" in destruct (get_field "_id" e) as [[]|] eqn:Eq
    | context [@lookup _ _ _ _ ?k ?m] =>
        let Eq := fresh "El" in destruct (m !! k) eqn:Eq
    end).

(** Follow a run that is known to have thrown. *)
Ltac follow_thrown faults E :=
  repeat (cbn in E;
    match type of E with
    | (Ok _, _) = (Throw _, _) => discriminate E
    | context [isValidObjectId ?i] =>
        let Eq := fresh "Ev" in destruct (isValidObjectId i) eqn:Eq
    | context [truthy ?x] =>
        let Eq := fresh "Et" in destruct (truthy x) eqn:Eq
    | context [faults ?c] =>
        let Eq := fresh "Ef" in destruct (faults c) eqn:Eq
    | context [match get_field "_id" ?e with _ => _ end] =>
        let Eq := fresh "Ei" in destruct (get_field "_id" e) as [[]|] eqn:Eq
    | context [@lookup _ _ _ _ ?k ?m] =>
        let Eq := fresh "El" in destruct (m !! k) eqn:Eq
    end);
  cbn in E.

(** The same on a goal: split on the answers of the dependencies. *)
Ltac follow_goal faults :=
  repeat (cbn;
    match goal with
    | |- context [faults ?c] =>
        let Eq := fresh "Ef" in destruct (faults c) eqn:Eq
    end).

(** All the branches of a run: split on the answers of the dependencies
    and on the lookups. *)
Ltac follow_all faults :=
  repeat (cbn;
    match goal with
    | |- context [faults ?c] =>
        let Eq := fresh "Ef" in destruct (faults c) eqn:Eq
    | |- context [match get_field "_id" ?e with _ => _ end] =>
        let Eq := fresh "Ei" in destruct (get_field "_id" e) as [[]|] eqn:Eq
    | |- context [@lookup _ _ _ _ ?k ?m] =>
        let Eq := fresh "El" in destruct (m !! k) eqn:Eq
    end).

Lemma calls_during_app (w w' : world) (l : list call) :
  trace w' = (trace w ++ l)%list → calls_during w w' = l.
Proof. intros E. unfold calls_during. rewrite E. apply drop_app_length. Qed.

(** Normalise the trace of the final world and read off the calls. *)
Ltac read_calls :=
  erewrite calls_during_app;
    [| cbn; rewrite <- ?(assoc_L (++)); reflexivity].

(** ** Fields of documents *)

Lemma get_set_field_eq (k : string) (v : json) (d : doc) :
  get_field k (set_field k v d) = Some v.
Proof.
  induction d as [|[k' v'] d IH]; simpl.
  - by rewrite String.eqb_refl.
  - destruct (String.eqb k' k) eqn:E; simpl.
    + by rewrite String.eqb_refl.
    + by rewrite E.
Qed.

Lemma get_set_field_ne (k k' : string) (v : json) (d : doc) :
  k ≠ k' → get_field k (set_field k' v d) = get_field k d.
Proof.
  intros Hne. induction d as [|[k0 v0] d IH]; simpl.
  - destruct (String.eqb k' k) eqn:E; [|done].
    apply String.eqb_eq in E. congruence.
  - destruct (String.eqb k0 k') eqn:E; simpl.
    + apply String.eqb_eq in E. subst k0.
      destruct (String.eqb k' k) eqn:E'; [|done].
      apply String.eqb_eq in E'. congruence.
    + by rewrite IH.
Qed.

Lemma set_field_keys (k : string) (v : json) (d : doc) (x : string) :
  x ∈ (set_field k v d).*1 → x = k ∨ x ∈ d.*1.
Proof.
  induction d as [|[k0 v0] d IH]; simpl.
  - intros Hin. left. by apply list_elem_of_singleton in Hin.
  - destruct (String.eqb k0 k) eqn:E; simpl; intros Hin.
    + apply elem_of_cons in Hin as [->|Hin]; [by left|]. right. by right.
    + apply elem_of_cons in Hin as [->|Hin]; [right; by left|].
      destruct (IH Hin) as [->|?]; [by left|]. right. by right.
Qed.

Lemma set_field_keys_NoDup (k : string) (v : json) (d : doc) :
  NoDup d.*1 → NoDup (set_field k v d).*1.
Proof.
  induction d as [|[k0 v0] d IH]; simpl; intros Hd.
  - apply NoDup_singleton.
  - inversion Hd as [|? ? Hnin Hd']; subst.
    destruct (String.eqb k0 k) eqn:E; simpl.
    + apply String.eqb_eq in E. subst. by constructor.
    + constructor; [|by apply IH].
      intros Hin. apply set_field_keys in Hin as [->|Hin]; [|done].
      by rewrite String.eqb_refl in E.
Qed.

Lemma get_field_absent (k : string) (d : doc) :
  k ∉ d.*1 → get_field k d = None.
Proof.
  induction d as [|[k1 v1] d IH]; simpl; [done|]. intros Hnin.
  destruct (String.eqb k1 k) eqn:E1.
  - apply String.eqb_eq in E1. subst. destruct Hnin. by left.
  - apply IH. intros Hin. apply Hnin. by right.
Qed.

(** Reading a field after an update: the update's value when the update
    names the field, the old value otherwise. *)
Lemma get_assign_fields (k : string) (upd d : doc) :
  NoDup upd.*1 →
  get_field k (assign_fields upd d)
  = match get_field k upd with Some v => Some v | None => get_field k d end.
Proof.
  unfold assign_fields. revert d.
  induction upd as [|[k0 v0] upd IH]; intros d Hnd; simpl; [done|].
  inversion Hnd as [|? ? Hnin Hnd']; subst.
  rewrite IH by done.
  destruct (String.eqb k0 k) eqn:E.
  - apply String.eqb_eq in E. subst k0.
    rewrite (get_field_absent k upd Hnin). apply get_set_field_eq.
  - destruct (get_field k upd); [done|].
    apply get_set_field_ne. intros ->. by rewrite String.eqb_refl in E.
Qed.

Lemma strip_undefined_keys (d : doc) (x : string) :
  x ∈ (strip_undefined d).*1 → x ∈ d.*1.
Proof.
  induction d as [|[k0 v0] d IH]; simpl; [done|].
  destruct (defined v0); simpl; intros Hin.
  - apply elem_of_cons in Hin as [->|Hin]; [by left | right; by apply IH].
  - right. by apply IH.
Qed.

Lemma strip_undefined_keys_NoDup (d : doc) :
  NoDup d.*1 → NoDup (strip_undefined d).*1.
Proof.
  induction d as [|[k0 v0] d IH]; simpl; intros Hd; [done|].
  inversion Hd as [|? ? Hnin Hd']; subst.
  destruct (defined v0); simpl; [|by apply IH].
  constructor; [|by apply IH]. intros Hin. by apply Hnin, strip_undefined_keys.
Qed.

Lemma get_strip_undefined (k : string) (d : doc) :
  NoDup d.*1 →
  get_field k (strip_undefined d)
  = match get_field k d with
    | Some v => if defined v then Some v else None
    | None => None
    end.
Proof.
  induction d as [|[k0 v0] d IH]; simpl; intros Hd; [done|].
  inversion Hd as [|? ? Hnin Hd']; subst.
  destruct (String.eqb k0 k) eqn:E.
  - apply String.eqb_eq in E. subst k0.
    destruct (defined v0); simpl; [by rewrite String.eqb_refl|].
    apply get_field_absent. intros Hin. by apply Hnin, strip_undefined_keys.
  - destruct (defined v0); simpl; [rewrite E|]; by apply IH.
Qed.

(** Reading a field after [findByIdAndUpdate]: the update's value when the
    update gives the field a value, the stored value otherwise. *)
Lemma get_updated_field (k : string) (upd d : doc) :
  NoDup upd.*1 →
  get_field k (assign_fields (strip_undefined upd) d)
  = match get_field k upd with
    | Some v => if defined v then Some v else get_field k d
    | None => get_field k d
    end.
Proof.
  intros Hnd.
  rewrite get_assign_fields by (by apply strip_undefined_keys_NoDup).
  rewrite get_strip_undefined by done.
  by destruct (get_field k upd) as [v|]; [destruct (defined v)|].
Qed.

Lemma truthy_defined (v : json) : truthy v = true → defined v = true.
Proof. by destruct v. Qed.

(** The document that the model builds differs from the data in [_id]
    only. *)
Lemma new_document_field {P : Platform} (k : string) (data : doc)
    (stored : gmap string doc) :
  k ≠ "_id" → get_field k (new_document data stored) = get_field k data.
Proof.
  intros Hk. unfold new_document.
  destruct (get_field "_id" data) as [[| | | |s| |]|];
    try destruct (isValidObjectId s); by apply get_set_field_ne.
Qed.

(** ** Cache patterns *)

Lemma string_app_assoc (a b c : string) : (a ++ b) ++ c = a ++ b ++ c.
Proof.
  induction a as [|x a IH]; [done|].
  change (String x ((a ++ b) ++ c) = String x (a ++ b ++ c)). by f_equal.
Qed.

Lemma length_app_star (s : string) :
  String.length (s ++ "*") = S (String.length s).
Proof.
  induction s as [|x s IH]; [done|].
  change (S (String.length (s ++ "*")) = S (S (String.length s))). by f_equal.
Qed.

Lemma substring_last_star (s : string) :
  String.substring (String.length s) 1 (s ++ "*") = "*".
Proof. induction s as [|x s IH]; [done | exact IH]. Qed.

Lemma substring_init_star (s : string) :
  String.substring 0 (String.length s) (s ++ "*") = s.
Proof.
  induction s as [|x s IH]; [done|].
  change (String x (String.substring 0 (String.length s) (s ++ "*")) = String x s).
  by f_equal.
Qed.

Lemma star_prefix_app (s : string) : star_prefix (s ++ "*") = Some s.
Proof.
  unfold star_prefix. rewrite length_app_star.
  replace (S (String.length s) - 1)%nat with (String.length s) by lia.
  by rewrite substring_last_star, substring_init_star.
Qed.

Lemma prefix_substring (n : nat) (s : string) :
  String.prefix (String.substring 0 n s) s = true.
Proof.
  revert n. induction s as [|x s IH]; intros [|n]; simpl; try done.
  destruct (Ascii.ascii_dec x x); [apply IH | done].
Qed.

Lemma key_matches_star (p key : string) :
  key_matches (p ++ "*") key = String.prefix p key.
Proof. unfold key_matches. by rewrite star_prefix_app. Qed.

Lemma key_matches_self (key : string) : key_matches key key = true.
Proof.
  unfold key_matches, star_prefix.
  destruct (String.eqb _ "*"); [apply prefix_substring | apply String.eqb_refl].
Qed.

(** What [delCache] leaves behind. *)
Lemma lookup_after_delCache (pattern key : string) (m : gmap string value) :
  key_matches pattern key = true →
  filter (λ kv : string * value, key_matches pattern kv.1 = false) m !! key = None.
Proof.
  intros Hk. apply map_lookup_filter_None. right. intros x _. simpl. by rewrite Hk.
Qed.

Lemma lookup_after_delCache_None (pattern key : string) (m : gmap string value) :
  m !! key = None →
  filter (λ kv : string * value, key_matches pattern kv.1 = false) m !! key = None.
Proof. intros Hk. apply map_lookup_filter_None. by left. Qed.

(** ** Computations that agree on the service state *)

Lemma same_service_state_refl (w : world) : same_service_state w w.
Proof. by repeat split. Qed.

Lemma same_record_call (c1 c2 : call) (w1 w2 : world) :
  same_service_state w1 w2 →
  same_service_state (record_call c1 w1) (record_call c2 w2).
Proof. by intros (? & ? & ? & ?). Qed.

Lemma outcome_rel_eq {A} (o1 o2 : outcome A) : outcome_rel eq o1 o2 ↔ o1 = o2.
Proof. destruct o1, o2; simpl; split; try congruence; done. Qed.

Lemma agree_ret {A} (R : A → A → Prop) (a1 a2 : A) :
  R a1 a2 → agree_on R (mret a1) (mret a2).
Proof. intros HR w1 w2 Hw. by split. Qed.

Lemma agree_throw {A} (R : A → A → Prop) (e : exn) :
  agree_on R (throw e) (throw e).
Proof. intros w1 w2 Hw. by split. Qed.

Lemma agree_bind {A B} (R : A → A → Prop) (S : B → B → Prop)
    (m1 m2 : M A) (f1 f2 : A → M B) :
  agree_on R m1 m2 → (∀ a1 a2, R a1 a2 → agree_on S (f1 a1) (f2 a2)) →
  agree_on S (m1 ≫= f1) (m2 ≫= f2).
Proof.
  intros Hm Hf w1 w2 Hw. unfold mbind, M_bind.
  destruct (Hm w1 w2 Hw) as [Ho Hs].
  destruct (m1 w1) as [[a1|e1] w1'], (m2 w2) as [[a2|e2] w2'];
    simpl in *; try done.
  by apply Hf.
Qed.

Lemma agree_try_catch {A} (R : A → A → Prop) (m1 m2 : M A)
    (h1 h2 : exn → M A) :
  agree_on R m1 m2 → (∀ e, agree_on R (h1 e) (h2 e)) →
  agree_on R (try_catch m1 h1) (try_catch m2 h2).
Proof.
  intros Hm Hh w1 w2 Hw. unfold try_catch.
  destruct (Hm w1 w2 Hw) as [Ho Hs].
  destruct (m1 w1) as [[a1|e1] w1'], (m2 w2) as [[a2|e2] w2'];
    simpl in *; try done.
  subst. by apply Hh.
Qed.

Lemma agree_gets {A} (g : world → A) :
  (∀ w1 w2, same_service_state w1 w2 → g w1 = g w2) → agree (gets g) (gets g).
Proof. intros Hg w1 w2 Hw. split; [simpl; by rewrite (Hg w1 w2) | done]. Qed.

Lemma agree_external {P : Platform} {A} (R : A → A → Prop)
    (f1 f2 : call → option exn) (c : call) (m1 m2 : M A) :
  f1 c = f2 c → agree_on R m1 m2 →
  agree_on R (external f1 c m1) (external f2 c m2).
Proof.
  intros Hc Hm w1 w2 Hw. unfold external. rewrite Hc.
  destruct (f2 c); simpl.
  - split; [done | by apply same_record_call].
  - apply Hm. by apply same_record_call.
Qed.

(** The audit write is the one step whose faults do not matter. *)
Lemma agree_logActivity {P : Platform} (f1 f2 : call → option exn)
    (a d : string) (u : user) (c : option json) :
  agree (logActivity f1 a d u c) (logActivity f2 a d u c).
Proof.
  intros w1 w2 (? & ? & ? & ?).
  unfold logActivity, activityLogService_logActivity, try_catch, external,
    console_error, modify.
  destruct (f1 _), (f2 _); simpl; by repeat split.
Qed.

Lemma BaseHooks_audit_blind : audit_blind BaseHooks.
Proof. unfold audit_blind. repeat apply conj; intros; by apply agree_ret. Qed.

(** Two platforms whose faults differ on audit writes only run every
    operation to the same outcome and the same service state. *)
Section Blind.
Context {P : Platform}.
Variables f1 f2 : call → option exn.
Hypothesis f12 : ∀ c, match c with AuditLog _ => True | _ => f1 c = f2 c end.

Lemma agree_model_new (data : doc) : agree (model_new data) (model_new data).
Proof. apply agree_gets. by intros w1 w2 (-> & _). Qed.

Lemma agree_entity_save (e : doc) : agree (entity_save f1 e) (entity_save f2 e).
Proof.
  apply agree_external; [apply (f12 (DbSave e))|].
  intros w1 w2 (Hd & Hc & He & Hn).
  destruct (get_field "_id" e) as [[]|]; simpl; try by repeat split.
  rewrite Hd. destruct (db w2 !! _); simpl; [by repeat split|].
  repeat split; simpl; congruence.
Qed.

Lemma agree_findById (id : string) : agree (findById f1 id) (findById f2 id).
Proof.
  apply agree_external; [apply (f12 (DbFindById id))|].
  apply agree_gets. by intros w1 w2 (-> & _).
Qed.

Lemma agree_findByIdAndUpdate (id : string) (upd : doc) :
  agree (findByIdAndUpdate f1 id upd) (findByIdAndUpdate f2 id upd).
Proof.
  apply agree_external; [apply (f12 (DbFindByIdAndUpdate id upd))|].
  intros w1 w2 (Hd & Hc & He & Hn). rewrite Hd.
  destruct (db w2 !! _); simpl; repeat split; simpl; congruence.
Qed.

Lemma agree_findByIdAndDelete (id : string) :
  agree (findByIdAndDelete f1 id) (findByIdAndDelete f2 id).
Proof.
  apply agree_external; [apply (f12 (DbFindByIdAndDelete id))|].
  intros w1 w2 (Hd & Hc & He & Hn). rewrite Hd.
  destruct (db w2 !! _); simpl; repeat split; simpl; congruence.
Qed.

Lemma agree_countDocuments (c : json) :
  agree (countDocuments f1 c) (countDocuments f2 c).
Proof.
  apply agree_external; [apply (f12 (DbCountDocuments c))|].
  apply agree_gets. by intros w1 w2 (-> & _).
Qed.

Lemma agree_find (c : json) (s l : Z) (o : doc) :
  agree (find f1 c s l o) (find f2 c s l o).
Proof.
  apply agree_external; [apply (f12 (DbFind c s l o))|].
  apply agree_gets. by intros w1 w2 (-> & _).
Qed.

Lemma agree_getCached (k : string) : agree (getCached f1 k) (getCached f2 k).
Proof.
  apply agree_external; [apply (f12 (CacheGet k))|].
  apply agree_gets. by intros w1 w2 (_ & -> & _).
Qed.

Lemma agree_setCached (k : string) (v : value) :
  agree (setCached f1 k v) (setCached f2 k v).
Proof.
  apply agree_external; [apply (f12 (CacheSet k v))|].
  intros w1 w2 (Hd & Hc & He & Hn). repeat split; simpl; congruence.
Qed.

Lemma agree_delCache (k : string) : agree (delCache f1 k) (delCache f2 k).
Proof.
  apply agree_external; [apply (f12 (CacheDel k))|].
  intros w1 w2 (Hd & Hc & He & Hn). repeat split; simpl; congruence.
Qed.

Lemma agree_emit (n : string) (e : option doc) (u : user) :
  agree (eventEmitter_emit f1 n e u) (eventEmitter_emit f2 n e u).
Proof.
  apply agree_external; [apply (f12 (Emit _))|].
  intros w1 w2 (Hd & Hc & He & Hn). repeat split; simpl; congruence.
Qed.

Context {H : Hooks}.
Hypothesis HB : audit_blind H.

Ltac agree_step :=
  lazymatch goal with
  | |- agree_on _ (mret _) (mret _) => by apply agree_ret
  | |- agree_on _ (throw _) (throw _) => apply agree_throw
  | |- agree_on _ (try_catch _ _) (try_catch _ _) =>
      apply agree_try_catch; [|intros]
  | |- agree_on _ (logActivity _ _ _ _ _) _ => apply agree_logActivity
  | |- agree_on _ (_ ≫= _) (_ ≫= _) =>
      eapply (agree_bind eq); [|intros ? ? ->]
  | |- agree_on _ (match ?x with _ => _ end) _ => destruct x
  | |- agree_on _ (model_new _) _ => apply agree_model_new
  | |- agree_on _ (entity_save _ _) _ => apply agree_entity_save
  | |- agree_on _ (findById _ _) _ => apply agree_findById
  | |- agree_on _ (findByIdAndUpdate _ _ _) _ => apply agree_findByIdAndUpdate
  | |- agree_on _ (findByIdAndDelete _ _) _ => apply agree_findByIdAndDelete
  | |- agree_on _ (countDocuments _ _) _ => apply agree_countDocuments
  | |- agree_on _ (find _ _ _ _ _) _ => apply agree_find
  | |- agree_on _ (getCached _ _) _ => apply agree_getCached
  | |- agree_on _ (setCached _ _ _) _ => apply agree_setCached
  | |- agree_on _ (delCache _ _) _ => apply agree_delCache
  | |- agree_on _ (eventEmitter_emit _ _ _ _) _ => apply agree_emit
  | |- agree_on _ (gets now) _ =>
      apply agree_gets; by intros ? ? (_ & _ & _ & ->)
  | |- agree_on _ _ _ => apply HB
  end.

Lemma agree_create (data : doc) (u : user) :
  agree (create f1 data u) (create f2 data u).
Proof. unfold agree, create. cbv zeta. repeat agree_step. Qed.

Lemma agree_update (id : string) (data : doc) (u : user) :
  agree (update f1 id data u) (update f2 id data u).
Proof. unfold agree, update. cbv zeta. repeat agree_step. Qed.

Lemma agree_remove (id : string) (u : user) :
  agree (remove f1 id u) (remove f2 id u).
Proof. unfold agree, remove. repeat agree_step. Qed.

Lemma agree_softRemove (id : string) (u : user) :
  agree (softRemove f1 id u) (softRemove f2 id u).
Proof. unfold agree, softRemove. repeat agree_step. Qed.

Lemma agree_findAll (filter : json) (page limit : Z) (sort : doc) (u : user) :
  agree (findAll f1 filter page limit sort u)
        (findAll f2 filter page limit sort u).
Proof. unfold agree, findAll. cbv zeta. repeat agree_step. Qed.

(** In [findOne] the [try] block hands over a promise: the two runs hand
    over promises that agree. *)
Lemma agree_findOne (id : string) (u : user) :
  agree (findOne f1 id u) (findOne f2 id u).
Proof.
  unfold agree, findOne. cbv zeta. destruct (negb _); [apply agree_throw|].
  eapply (agree_bind eq); [apply agree_getCached | intros ? cached ->].
  destruct cached; [by apply agree_ret|].
  eapply (agree_bind agree).
  - apply agree_try_catch; [|intros; apply agree_throw].
    eapply (agree_bind eq); [apply agree_findById | intros ? entity ->].
    destruct entity; [|apply agree_throw].
    repeat agree_step. apply agree_ret. apply HB.
  - intros p1 p2 Hp. eapply (agree_bind eq); [apply Hp | intros ? ? ->].
    by apply agree_ret.
Qed.

Lemma agree_search (query : string) (page limit : Z) (u : user) :
  agree (search f1 query page limit u) (search f2 query page limit u).
Proof.
  unfold agree, search. cbv zeta.
  apply agree_try_catch; [|intros; apply agree_throw].
  eapply (agree_bind eq); [apply agree_findAll | intros ? ? ->].
  repeat agree_step.
Qed.

Lemma agree_run (r : request) : agree (run f1 r) (run f2 r).
Proof.
  destruct r; simpl; unfold fmap, M_fmap.
  all: eapply (agree_bind eq);
    [first [apply agree_create | apply agree_update | apply agree_remove
           | apply agree_softRemove | apply agree_findAll | apply agree_findOne
           | apply agree_search]
    | intros ? ? ->; by apply agree_ret].
Qed.

End Blind.

(** ** The operations, claim by claim *)

(** C1. The not-found condition does not reach the caller as a not-found
    error.  For a valid identifier with no entity in the collection,
    [update], [remove], [softRemove] and, on a cache miss, [findOne] end
    with their generic internal-server error, whatever the dependencies
    answer: the [NotFoundException] is thrown inside the [try] block and
    replaced by its [catch]. *)
Theorem not_found_is_masked {P : Platform} (faults : call → option exn)
    (id : string) (data : doc) (u : user) (w : world) :
  isValidObjectId id = true →
  db w !! castObjectId id = None →
  (update faults (H:=BaseHooks) id data u w).1
    = Throw (InternalServerErrorException "Error updating entity") ∧
  (remove faults (H:=BaseHooks) id u w).1
    = Throw (InternalServerErrorException "Error removing entity") ∧
  (softRemove faults id u w).1
    = Throw (InternalServerErrorException "Error soft-deleting entity") ∧
  (faults (CacheGet (findOne_cacheKey id)) = None →
   cache w !! findOne_cacheKey id = None →
   (findOne faults (H:=BaseHooks) id u w).1
     = Throw (InternalServerErrorException "Error fetching entity")).
Proof.
  intros Ev Ed. unfold findOne_cacheKey. repeat split.
  4: intros Ef Ec.
  all: unfold_service; rewrite Ev; cbn.
  4: rewrite Ef; cbn; rewrite Ec.
  all: follow_goal faults; rewrite ?Ed; reflexivity.
Qed.

Lemma not_found_is_masked_witness :
  @isValidObjectId Demo.platform Demo.id9 = true ∧
  db Demo.w_ann !! @castObjectId Demo.platform Demo.id9 = None ∧
  (update (P:=Demo.platform) Demo.healthy (H:=BaseHooks)
     Demo.id9 [] Demo.alice Demo.w_ann).1
  = Throw (InternalServerErrorException "Error updating entity").
Proof.
  assert (Hv : @isValidObjectId Demo.platform Demo.id9 = true)
    by (vm_compute; reflexivity).
  assert (Hd : db Demo.w_ann !! @castObjectId Demo.platform Demo.id9 = None)
    by (vm_compute; reflexivity).
  split; [exact Hv|]. split; [exact Hd|].
  apply (not_found_is_masked (P:=Demo.platform) Demo.healthy
           Demo.id9 [] Demo.alice Demo.w_ann Hv Hd).
Defined.

(** An error of the cache lookup in [findOne] is outside every [try]
    block: it reaches the caller as it is. *)
Lemma findOne_cache_fault_escapes {P : Platform} {H : Hooks}
    (faults : call → option exn) (id : string) (u : user) (w : world) (e : exn) :
  isValidObjectId id = true →
  faults (CacheGet (findOne_cacheKey id)) = Some e →
  (findOne faults id u w).1 = Throw e.
Proof.
  intros Ev Ef. unfold findOne, findOne_cacheKey in *. rewrite Ev. cbn.
  unfold mbind, M_bind, getCached, external. by rewrite Ef.
Qed.

(** The errors that reach the caller of an operation: the bad-request
    error, an internal-server error, or the error of a cache lookup as the
    cache raised it.  The not-found error of the service is none of them. *)
Lemma errors_raised {P : Platform} (faults : call → option exn)
    (r : request) (w w' : world) (e : exn) :
  run faults (H:=BaseHooks) r w = (Throw e, w') →
  e = BadRequestException "Invalid ID format" ∨
  (∃ msg, e = InternalServerErrorException msg) ∨
  (∃ key, faults (CacheGet key) = Some e).
Proof.
  intros E. destruct r; unfold_service.
  all: follow_thrown faults E.
  all: simplify_eq; eauto.
Qed.

Lemma try_catch_throw_inv {A} (m : M A) (e0 e : exn) (w w' : world) :
  try_catch m (λ _, throw e0) w = (Throw e, w') → e = e0.
Proof.
  unfold try_catch, throw. destruct (m w) as [[a|e1] w1]; intros E; by simplify_eq.
Qed.

Lemma bind_ret_throw_inv {A B} (m : M A) (f : A → B) (e : exn) (w w' : world) :
  (m ≫= λ a, mret (f a)) w = (Throw e, w') → m w = (Throw e, w').
Proof.
  unfold mbind, M_bind, mret, M_ret.
  destruct (m w) as [[a|e1] w1]; intros E; by simplify_eq.
Qed.

(** Whatever the hooks do, an operation that runs wholly inside its [try]
    block raises nothing but the bad-request error and an internal-server
    error: every other error, the not-found error included, is replaced. *)
Lemma wrapped_errors {P : Platform} {H : Hooks} (faults : call → option exn)
    (r : request) (w w' : world) (e : exn) :
  (∀ filter page limit sort u, r ≠ FindAll filter page limit sort u) →
  (∀ id u, r ≠ FindOne id u) →
  run faults r w = (Throw e, w') →
  e = BadRequestException "Invalid ID format" ∨
  (∃ msg, e = InternalServerErrorException msg).
Proof.
  intros Hall Hone E.
  destruct r; [| | | | by destruct (Hall filter page limit sort u)
              | by destruct (Hone id u) |].
  all: apply bind_ret_throw_inv in E.
  all: unfold create, update, remove, softRemove, search in E.
  all: try (destruct (isValidObjectId id); cbn [negb] in E;
            [| unfold throw in E; simplify_eq; by left]).
  all: apply try_catch_throw_inv in E; eauto.
Qed.

(** C2. [softRemove] neither invalidates the cache nor emits an event: a
    successful call leaves the cache and the emitted events as they were,
    and issues no [delCache] and no [emit]. *)
Theorem softRemove_leaves_cache_and_events {P : Platform}
    (faults : call → option exn) (id : string) (u : user) (w w' : world) :
  softRemove faults id u w = (Ok tt, w') →
  cache w' = cache w ∧ events w' = events w ∧
  Forall no_invalidation_nor_event (calls_during w w').
Proof.
  intros E. unfold_service. follow faults E.
  all: injection E as <-; cbn.
  all: repeat split.
  all: read_calls.
  all: by repeat constructor.
Qed.

Lemma softRemove_leaves_cache_and_events_witness :
  let w' := (softRemove (P:=Demo.platform) Demo.healthy
               Demo.id1 Demo.alice Demo.w_ann_cached).2 in
  cache w' !! findOne_cacheKey (P:=Demo.platform) Demo.id1
    = Some (VDoc Demo.ann) ∧
  events w' = [].
Proof.
  intros w'.
  destruct (softRemove_leaves_cache_and_events (P:=Demo.platform) Demo.healthy
              Demo.id1 Demo.alice Demo.w_ann_cached w') as (Hc & He & _).
  - vm_compute. reflexivity.
  - rewrite Hc, He. split; vm_compute; reflexivity.
Defined.

(** The sibling mutations do both: after a successful [create], [update]
    or [remove] no cached page of [findAll] is left, the [findOne] entry of
    the identifier is gone, and the last event emitted carries the entity
    and the user. *)
Lemma mutations_invalidate_and_emit {P : Platform} (faults : call → option exn)
    (data : doc) (id : string) (u : user) (w w' : world) (e : doc) :
  (create faults (H:=BaseHooks) data u w = (Ok e, w') →
   findAll_keys_gone w' ∧
   last (events w') = Some (Build_event (modelName ++ ".saved") (Some e) u)) ∧
  (update faults (H:=BaseHooks) id data u w = (Ok e, w') →
   cache w' !! findOne_cacheKey id = None ∧ findAll_keys_gone w' ∧
   last (events w') = Some (Build_event (modelName ++ ".saved") (Some e) u)) ∧
  (remove faults (H:=BaseHooks) id u w = (Ok tt, w') →
   cache w' !! findOne_cacheKey id = None ∧ findAll_keys_gone w' ∧
   last (events w')
   = Some (Build_event (modelName ++ ".deleted") (db w !! castObjectId id) u)).
Proof.
  unfold findAll_keys_gone, findOne_cacheKey.
  repeat apply conj; intros E; unfold_service; follow faults E.
  all: injection E as <- <- || injection E as <-.
  all: cbn.
  all: repeat apply conj; try apply last_snoc.
  all: try (intros key Hk; apply lookup_after_delCache;
            change "-findAll-*" with ("-findAll-" ++ "*");
            by rewrite <- string_app_assoc, key_matches_star).
  all: try (apply lookup_after_delCache_None, lookup_after_delCache,
            key_matches_self).
  all: try (rewrite El; apply last_snoc).
Qed.

(** C3. A failure of the audit write is swallowed.  [logActivity] always
    returns normally and leaves the collection, the cache and the events
    alone, and when the activity log refuses the entry the message goes to
    the console.  Hence, for hooks that do not look at the audit trail,
    every operation on every input ends with the same outcome (the same
    result or the same error) and the same service state as on a platform
    whose audit writes all succeed. *)
Theorem audit_failure_is_swallowed {P : Platform} {H : Hooks}
    (faults : call → option exn) :
  audit_blind H →
  (∀ action documentId u changes w,
     ∃ w', logActivity faults action documentId u changes w = (Ok tt, w') ∧
       same_service_state w w' ∧
       (is_Some (faults (AuditLog (Build_audit_entry
                   action documentId collectionName u changes))) →
        console w' = (console w ++ ["Create log system error"])%list)) ∧
  (∀ r w,
     (run faults r w).1 = (run (audit_never_fails faults) r w).1 ∧
     same_service_state (run faults r w).2
                        (run (audit_never_fails faults) r w).2).
Proof.
  intros HB. split.
  - intros. unfold_service. follow_goal faults.
    all: eexists; split; [reflexivity|]; split; [by repeat split|].
    + done.
    + by intros [? ?].
  - intros r w.
    assert (F : ∀ c, match c with
                     | AuditLog _ => True
                     | _ => faults c = audit_never_fails faults c
                     end) by (by intros []).
    destruct (agree_run faults (audit_never_fails faults) F HB r w w
                (same_service_state_refl w)) as [Ho Hs].
    split; [by apply outcome_rel_eq | done].
Qed.

Lemma audit_failure_is_swallowed_witness :
  audit_blind BaseHooks ∧
  (run (P:=Demo.platform) (H:=BaseHooks) Demo.audit_down
     (Update Demo.id1 [("name", JStr "Anna")] Demo.alice) Demo.w_ann).1
  = (run (P:=Demo.platform) (H:=BaseHooks) (audit_never_fails Demo.audit_down)
       (Update Demo.id1 [("name", JStr "Anna")] Demo.alice) Demo.w_ann).1.
Proof.
  split; [exact BaseHooks_audit_blind|].
  apply (audit_failure_is_swallowed (P:=Demo.platform) (H:=BaseHooks)
           Demo.audit_down BaseHooks_audit_blind).
Defined.

(** A cache hit of [findOne]: the cached value, and the lookup as the only
    call. *)
Lemma findOne_hit {P : Platform} {H : Hooks} (faults : call → option exn)
    (id : string) (u : user) (v : value) (w : world) :
  isValidObjectId id = true →
  faults (CacheGet (findOne_cacheKey id)) = None →
  cache w !! findOne_cacheKey id = Some v →
  findOne faults id u w = (Ok v, record_call (CacheGet (findOne_cacheKey id)) w).
Proof.
  intros Ev Ef Ec. unfold findOne, findOne_cacheKey in *. rewrite Ev. cbn [negb].
  unfold_service. rewrite Ef. cbn. by rewrite Ec.
Qed.

(** A cache miss of [findOne] on an entity of the collection: the service
    returns the list that [onView] resolves with, caches the entity itself,
    and the code without the hook call would return the entity. *)
Lemma findOne_miss {P : Platform} (faults : call → option exn)
    (id : string) (u : user) (e : doc) (w : world) :
  isValidObjectId id = true →
  db w !! castObjectId id = Some e →
  cache w !! findOne_cacheKey id = None →
  faults (CacheGet (findOne_cacheKey id)) = None →
  faults (DbFindById id) = None →
  faults (CacheSet (findOne_cacheKey id) (VDoc e)) = None →
  ∃ w1,
    findOne faults (H:=BaseHooks) id u w = (Ok (VDocs [e]), w1) ∧
    Unhooked.findOne faults id u w = (Ok (VDoc e), w1) ∧
    cache w1 !! findOne_cacheKey id = Some (VDoc e).
Proof.
  intros Ev Ed Ec F1 F2 F3. unfold findOne_cacheKey in *.
  unfold findOne, Unhooked.findOne. rewrite Ev. cbn [negb]. unfold_service.
  rewrite F1. cbn. rewrite Ec, F2. cbn. rewrite Ed, F3. cbn.
  destruct (faults (AuditLog _)); cbn;
    (eexists; split; [reflexivity|]; split; [reflexivity|];
     cbn; apply lookup_insert_eq).
Qed.

(** C4. On a cache miss [findOne] does not return the value it caches.
    For a valid identifier of an entity [e] of the collection with no
    [findOne] entry in the cache, the first call returns the one-element
    list [[e]] and caches [e]; the second call is answered from the cache
    with [e]; the two results differ. *)
Theorem findOne_miss_returns_list {P : Platform} (faults : call → option exn)
    (id : string) (u : user) (e : doc) (w : world) :
  isValidObjectId id = true →
  db w !! castObjectId id = Some e →
  cache w !! findOne_cacheKey id = None →
  faults (CacheGet (findOne_cacheKey id)) = None →
  faults (DbFindById id) = None →
  faults (CacheSet (findOne_cacheKey id) (VDoc e)) = None →
  ∃ w1 w2,
    findOne faults (H:=BaseHooks) id u w = (Ok (VDocs [e]), w1) ∧
    cache w1 !! findOne_cacheKey id = Some (VDoc e) ∧
    findOne faults (H:=BaseHooks) id u w1 = (Ok (VDoc e), w2) ∧
    VDocs [e] ≠ VDoc e.
Proof.
  intros Ev Ed Ec F1 F2 F3.
  destruct (findOne_miss faults id u e w Ev Ed Ec F1 F2 F3) as (w1 & E1 & _ & C1).
  exists w1, (record_call (CacheGet (findOne_cacheKey id)) w1).
  repeat split; [done | done | by apply findOne_hit | discriminate].
Qed.

Lemma findOne_miss_returns_list_witness :
  ∃ w1 w2,
    findOne (P:=Demo.platform) Demo.healthy (H:=BaseHooks)
      Demo.id1 Demo.alice Demo.w_ann = (Ok (VDocs [Demo.ann]), w1) ∧
    cache w1 !! findOne_cacheKey (P:=Demo.platform) Demo.id1
      = Some (VDoc Demo.ann) ∧
    findOne (P:=Demo.platform) Demo.healthy (H:=BaseHooks)
      Demo.id1 Demo.alice w1 = (Ok (VDoc Demo.ann), w2) ∧
    VDocs [Demo.ann] ≠ VDoc Demo.ann.
Proof.
  apply (findOne_miss_returns_list (P:=Demo.platform) Demo.healthy
           Demo.id1 Demo.alice Demo.ann Demo.w_ann);
    vm_compute; reflexivity.
Defined.

(** C5. An invalid identifier is rejected before anything else: [update],
    [remove], [findOne] and [softRemove] raise the bad-request error
    'Invalid ID format' and leave the whole world as it was, trace
    included: no database call, no cache read or invalidation, no audit
    write and no event. *)
Theorem invalid_id_rejected_first {P : Platform} {H : Hooks}
    (faults : call → option exn) (id : string) (data : doc) (u : user)
    (w : world) :
  isValidObjectId id = false →
  update faults id data u w
    = (Throw (BadRequestException "Invalid ID format"), w) ∧
  remove faults id u w
    = (Throw (BadRequestException "Invalid ID format"), w) ∧
  findOne faults id u w
    = (Throw (BadRequestException "Invalid ID format"), w) ∧
  softRemove faults id u w
    = (Throw (BadRequestException "Invalid ID format"), w).
Proof.
  intros E. unfold update, remove, findOne, softRemove. rewrite E. done.
Qed.

Lemma invalid_id_rejected_first_witness :
  @isValidObjectId Demo.platform "42" = false ∧
  softRemove (P:=Demo.platform) Demo.healthy "42" Demo.alice Demo.w_ann_cached
  = (Throw (BadRequestException "Invalid ID format"), Demo.w_ann_cached).
Proof.
  assert (Hv : @isValidObjectId Demo.platform "42" = false)
    by (vm_compute; reflexivity).
  split; [exact Hv|].
  apply (invalid_id_rejected_first (P:=Demo.platform) (H:=BaseHooks)
           Demo.healthy "42" [] Demo.alice Demo.w_ann_cached Hv).
Defined.

(** C6. The bookkeeping fields.  With a truthy [user?.userId], every
    document that [create] hands to the model carries it as [createdBy] and
    every update that [update] hands to the model carries it as
    [updatedBy], however the call ends; the entity that a successful call
    returns carries the field and is the one stored.  The update that
    [softRemove] hands to the model carries [isDeleted] true, [deletedBy]
    [user?.userId] and [deletedAt] the current time, however the call
    ends.  A successful [softRemove] leaves the record in the collection,
    with [isDeleted] true and [deletedAt] the current time, every field
    that is not of the three as it was, and no record removed; its
    [deletedBy] is [user?.userId] when that is defined, and stays what it
    was when it is not, since the model does not write an undefined
    value. *)
Theorem bookkeeping_fields_are_set {P : Platform} (faults : call → option exn)
    (data : doc) (id : string) (u : user) (w w' : world) (e : doc) :
  (truthy (userId_opt u) = true →
   Forall (carries "createdBy" (userId_opt u))
     (calls_during w (create faults (H:=BaseHooks) data u w).2) ∧
   (create faults (H:=BaseHooks) data u w = (Ok e, w') →
    get_field "createdBy" e = Some (userId_opt u) ∧
    db w' !! id_string e = Some e)) ∧
  (truthy (userId_opt u) = true →
   Forall (carries "updatedBy" (userId_opt u))
     (calls_during w (update faults (H:=BaseHooks) id data u w).2) ∧
   (NoDup data.*1 →
    update faults (H:=BaseHooks) id data u w = (Ok e, w') →
    get_field "updatedBy" e = Some (userId_opt u) ∧
    db w' !! castObjectId id = Some e)) ∧
  Forall (λ c, carries "isDeleted" (JBool true) c ∧
               carries "deletedBy" (userId_opt u) c ∧
               carries "deletedAt" (JDate (now w)) c)
    (calls_during w (softRemove faults id u w).2) ∧
  (softRemove faults id u w = (Ok tt, w') →
   ∃ d d', db w !! castObjectId id = Some d ∧
     db w' !! castObjectId id = Some d' ∧
     get_field "isDeleted" d' = Some (JBool true) ∧
     get_field "deletedBy" d'
     = (if defined (userId_opt u) then Some (userId_opt u)
        else get_field "deletedBy" d) ∧
     get_field "deletedAt" d' = Some (JDate (now w)) ∧
     (∀ k, k ≠ "isDeleted" → k ≠ "deletedBy" → k ≠ "deletedAt" →
           get_field k d' = get_field k d) ∧
     dom (db w') = dom (db w)).
Proof.
  split; [|split; [|split]].
  - intros Et. split.
    + unfold_service. rewrite Et. follow_all faults.
      all: read_calls.
      all: repeat constructor; cbn.
      all: rewrite new_document_field by done; apply get_set_field_eq.
    + intros E. unfold_service. rewrite Et in E. follow faults E.
      all: simplify_eq; cbn.
      all: split; [rewrite new_document_field by done; apply get_set_field_eq|].
      all: unfold id_string; rewrite Ei; apply lookup_insert_eq.
  - intros Et. split.
    + unfold_service. rewrite Et.
      destruct (isValidObjectId id); cbn;
        [| rewrite (calls_during_app w w []) by (symmetry; apply app_nil_r);
           constructor].
      follow_all faults.
      all: read_calls.
      all: repeat constructor; cbn.
      all: apply get_set_field_eq.
    + intros Hnd E. unfold_service. rewrite Et in E. follow faults E.
      all: simplify_eq; cbn.
      all: split; [| apply lookup_insert_eq].
      all: rewrite get_updated_field by (by apply set_field_keys_NoDup).
      all: by rewrite get_set_field_eq, truthy_defined.
  - unfold_service.
    destruct (isValidObjectId id); cbn;
      [| rewrite (calls_during_app w w []) by (symmetry; apply app_nil_r);
         constructor].
    follow_all faults.
    all: read_calls.
    all: by repeat constructor.
  - intros E. unfold_service. follow faults E.
    all: simplify_eq; cbn.
    all: eexists _, _; split; [reflexivity|]; split; [apply lookup_insert_eq|].
    all: unfold assign_fields; destruct (defined (userId_opt u)); simpl.
    all: do 3 (split;
      [rewrite ?get_set_field_ne by done; first [apply get_set_field_eq | done]|]).
    all: split; [intros k H1 H2 H3; rewrite !get_set_field_ne; done|].
    all: by apply dom_insert_lookup_L.
Qed.

Lemma bookkeeping_fields_are_set_witness :
  let data := [("name", JStr "Bob")] in
  let created := create (P:=Demo.platform) Demo.healthy (H:=BaseHooks)
                   data Demo.alice Demo.w_ann in
  let updated := update (P:=Demo.platform) Demo.healthy (H:=BaseHooks)
                   Demo.id1 data Demo.alice Demo.w_ann in
  let removed := softRemove (P:=Demo.platform) Demo.healthy
                   Demo.id1 Demo.alice Demo.w_ann in
  (∃ e, created.1 = Ok e ∧ get_field "createdBy" e = Some (JStr "u1")) ∧
  (∃ e, updated.1 = Ok e ∧ get_field "updatedBy" e = Some (JStr "u1")) ∧
  (∃ d', db removed.2 !! Demo.id1 = Some d' ∧
         get_field "isDeleted" d' = Some (JBool true)).
Proof.
  intros data created updated removed.
  assert (Ht : truthy (userId_opt Demo.alice) = true) by reflexivity.
  assert (Hn : NoDup data.*1) by (apply NoDup_singleton).
  assert (Ec : ∃ e, created = (Ok e, created.2))
    by (eexists; vm_compute; reflexivity).
  assert (Eu : ∃ e, updated = (Ok e, updated.2))
    by (eexists; vm_compute; reflexivity).
  assert (Er : removed = (Ok tt, removed.2)) by (vm_compute; reflexivity).
  destruct Ec as [ec Ec], Eu as [eu Eu].
  pose proof (bookkeeping_fields_are_set (P:=Demo.platform) Demo.healthy
                data Demo.id1 Demo.alice Demo.w_ann created.2 ec) as (Tc & _).
  pose proof (bookkeeping_fields_are_set (P:=Demo.platform) Demo.healthy
                data Demo.id1 Demo.alice Demo.w_ann updated.2 eu) as (_ & Tu & _).
  pose proof (bookkeeping_fields_are_set (P:=Demo.platform) Demo.healthy
                data Demo.id1 Demo.alice Demo.w_ann removed.2 [])
    as (_ & _ & _ & Tr).
  destruct (Tc Ht) as [_ Tc'], (Tu Ht) as [_ Tu'].
  destruct (Tc' Ec) as [Hc _], (Tu' Hn Eu) as [Hu _].
  destruct (Tr Er) as (d & d' & _ & Hd' & Hdel & _).
  split; [|split].
  - exists ec. split; [rewrite Ec; reflexivity | exact Hc].
  - exists eu. split; [rewrite Eu; reflexivity | exact Hu].
  - exists d'. split; [exact Hd' | exact Hdel].
Defined.

(** C7, as stated, fails: a [findOne] answered from the cache succeeds and
    writes no audit entry. *)
Lemma cached_findOne_is_not_audited :
  ¬ audited_once (P:=Demo.platform) Demo.healthy
      (FindOne Demo.id1 Demo.alice) Demo.w_ann_cached.
Proof.
  intros Hc.
  specialize (Hc (Found (VDoc Demo.ann))
    (record_call (CacheGet (findOne_cacheKey (P:=Demo.platform) Demo.id1))
       Demo.w_ann_cached)).
  assert (E : ([] : list string) = ["view"]);
    [apply Hc; vm_compute; reflexivity | discriminate E].
Qed.

(** A [search] that misses the cache writes two entries, the 'viewAll' of
    its [findAll] and its own 'search'. *)
Lemma search_miss_is_audited_twice :
  ¬ audited_once (P:=Demo.platform) Demo.healthy
      (Search "Ann" 1 10 Demo.alice) Demo.w_ann.
Proof.
  intros Hc.
  specialize (Hc (Found (VPage [Demo.ann] 1 1 10))
    (run (P:=Demo.platform) (H:=BaseHooks) Demo.healthy
       (Search "Ann" 1 10 Demo.alice) Demo.w_ann).2).
  assert (E : ["viewAll"; "search"] = ["search"]);
    [apply Hc; vm_compute; reflexivity | discriminate E].
Qed.

(** C7, amended.  With the hooks of [BaseService], a successful [create],
    [update], [remove] or [softRemove] attempts exactly one audit write,
    under 'create', 'update', 'delete' or 'softDelete'.  A successful
    [findAll] or [findOne] attempts exactly one, under 'viewAll' or 'view',
    when the cache holds no entry for its key, and none when it is answered
    from the cache.  A successful [search] attempts the writes of its
    [findAll] and then one under 'search'. *)
Theorem audit_written_on_store_access {P : Platform}
    (faults : call → option exn) (r : request) (w w' : world) (rep : reply) :
  run faults (H:=BaseHooks) r w = (Ok rep, w') →
  action <$> audit_writes (calls_during w w') = audited_actions r w.
Proof.
  intros E.
  destruct r; unfold audited_actions, action_name, findAll_cacheKey,
    findOne_cacheKey, text_filter.
  all: unfold_service.
  all: follow faults E.
  all: simplify_eq; cbn.
  all: try (read_calls; reflexivity).
  all: erewrite calls_during_app; [| symmetry; apply app_nil_r]; reflexivity.
Qed.

Lemma audit_written_on_store_access_witness :
  let w' := (run (P:=Demo.platform) (H:=BaseHooks) Demo.healthy
               (FindOne Demo.id1 Demo.alice) Demo.w_ann).2 in
  action <$> audit_writes (calls_during Demo.w_ann w') = ["view"].
Proof.
  intros w'.
  apply (audit_written_on_store_access (P:=Demo.platform) Demo.healthy
           (FindOne Demo.id1 Demo.alice) Demo.w_ann w'
           (Found (VDocs [Demo.ann]))).
  vm_compute. reflexivity.
Defined.

(** C8. Whenever [findAll] on the text filter of the query returns a value,
    [search] returns exactly that value; the world it leaves differs from
    the one [findAll] leaves by the audit write under 'search' alone: the
    same collection, cache and events, and one more audit write. *)
Theorem search_returns_findAll {P : Platform} {H : Hooks}
    (faults : call → option exn) (query : string) (page limit : Z) (u : user)
    (w w1 : world) (r : value) :
  findAll faults (text_filter query) page limit [] u w = (Ok r, w1) →
  ∃ w2,
    search faults query page limit u w = (Ok r, w2) ∧
    same_service_state w1 w2 ∧
    audit_writes (calls_during w1 w2)
    = [Build_audit_entry "search" "" collectionName u
         (Some (JObj [("query", JStr query)]))].
Proof.
  intros E. unfold search, text_filter in *. unfold mbind, M_bind, try_catch.
  rewrite E. unfold_service.
  follow_goal faults.
  all: eexists; split; [reflexivity|]; split; [by repeat split|].
  all: read_calls.
  all: reflexivity.
Qed.

Lemma search_returns_findAll_witness :
  ∃ w2, search (P:=Demo.platform) Demo.healthy (H:=BaseHooks)
          "Ann" 1 10 Demo.alice Demo.w_ann
        = (Ok (VPage [Demo.ann] 1 1 10), w2).
Proof.
  destruct (search_returns_findAll (P:=Demo.platform) (H:=BaseHooks)
              Demo.healthy "Ann" 1 10 Demo.alice Demo.w_ann
              (findAll (P:=Demo.platform) Demo.healthy (H:=BaseHooks)
                 (text_filter "Ann") 1 10 [] Demo.alice Demo.w_ann).2
              (VPage [Demo.ann] 1 1 10)) as (w2 & E & _).
  - vm_compute. reflexivity.
  - by exists w2.
Defined.

(** When [findAll] throws, [search] throws its own internal-server error
    and writes no 'search' entry. *)
Lemma search_masks_findAll_failure {P : Platform} {H : Hooks}
    (faults : call → option exn) (query : string) (page limit : Z) (u : user)
    (w w1 : world) (e : exn) :
  findAll faults (text_filter query) page limit [] u w = (Throw e, w1) →
  search faults query page limit u w
  = (Throw (InternalServerErrorException "Error searching entities"), w1).
Proof.
  intros E. unfold search, text_filter in *. unfold mbind, M_bind, try_catch.
  by rewrite E.
Qed.

(** C9. A cache hit returns at once.  When the lookup of the computed key
    gives an entry, [findOne] (for a valid identifier) and [findAll] (once
    [onFinding] has given the condition) return that entry unchanged, and
    the world is the one of the lookup: the lookup is the only call, so no
    database query, no [onView], no audit write and no write to the cache
    take place. *)
Theorem cache_hit_returns_at_once {P : Platform} {H : Hooks}
    (faults : call → option exn) (id : string) (filter : json)
    (page limit : Z) (sort : doc) (u : user) (w w0 : world)
    (condition : json) (v : value) :
  (isValidObjectId id = true →
   faults (CacheGet (findOne_cacheKey id)) = None →
   cache w !! findOne_cacheKey id = Some v →
   findOne faults id u w
   = (Ok v, record_call (CacheGet (findOne_cacheKey id)) w)) ∧
  (onFinding filter u w = (Ok condition, w0) →
   faults (CacheGet (findAll_cacheKey condition page limit sort)) = None →
   cache w0 !! findAll_cacheKey condition page limit sort = Some v →
   findAll faults filter page limit sort u w
   = (Ok v,
      record_call (CacheGet (findAll_cacheKey condition page limit sort)) w0)).
Proof.
  split.
  - apply findOne_hit.
  - intros Eh Ef Ec. unfold findAll. unfold mbind, M_bind. rewrite Eh.
    unfold getCached, external. fold (findAll_cacheKey condition page limit sort).
    rewrite Ef. cbn. by rewrite Ec.
Qed.

Lemma cache_hit_returns_at_once_witness :
  findOne (P:=Demo.platform) Demo.healthy (H:=BaseHooks)
    Demo.id1 Demo.alice Demo.w_ann_cached
  = (Ok (VDoc Demo.ann),
     record_call (CacheGet (findOne_cacheKey (P:=Demo.platform) Demo.id1))
       Demo.w_ann_cached) ∧
  findAll (P:=Demo.platform) Demo.healthy (H:=BaseHooks)
    (JObj []) 1 10 [] Demo.alice Demo.w_page_cached
  = (Ok (VPage [Demo.ann] 1 1 10),
     record_call
       (CacheGet (findAll_cacheKey (P:=Demo.platform) (JObj []) 1 10 []))
       Demo.w_page_cached).
Proof.
  pose proof (cache_hit_returns_at_once (P:=Demo.platform) (H:=BaseHooks)
                Demo.healthy Demo.id1 (JObj []) 1 10 [] Demo.alice
                Demo.w_ann_cached Demo.w_ann_cached (JObj []) (VDoc Demo.ann))
    as (T1 & _).
  pose proof (cache_hit_returns_at_once (P:=Demo.platform) (H:=BaseHooks)
                Demo.healthy Demo.id1 (JObj []) 1 10 [] Demo.alice
                Demo.w_page_cached Demo.w_page_cached (JObj [])
                (VPage [Demo.ann] 1 1 10))
    as (_ & T2).
  split.
  - apply T1; vm_compute; reflexivity.
  - apply T2; vm_compute; reflexivity.
Defined.

(** The hooks of [BaseService] return their argument, or nothing, and
    leave the world alone. *)
Lemma BaseHooks_noop (data : doc) (id : string) (entity : doc)
    (removed : option doc) (l : list doc) (condition : json) (u : user)
    (w : world) :
  @beforeCreate BaseHooks data u w = (Ok data, w) ∧
  @afterCreate BaseHooks entity u w = (Ok tt, w) ∧
  @beforeUpdate BaseHooks id data u w = (Ok data, w) ∧
  @afterUpdate BaseHooks entity u w = (Ok tt, w) ∧
  @beforeRemove BaseHooks removed u w = (Ok tt, w) ∧
  @afterRemove BaseHooks removed u w = (Ok tt, w) ∧
  @onView BaseHooks l u w = (Ok l, w) ∧
  @onFinding BaseHooks condition u w = (Ok condition, w).
Proof. by repeat split. Qed.

(** Every operation but [findOne] runs as the code without the hook
    calls. *)
Lemma unhooked_run {P : Platform} (faults : call → option exn)
    (r : request) (w : world) :
  (∀ id u, r ≠ FindOne id u) →
  run faults (H:=BaseHooks) r w = Unhooked.run faults r w.
Proof. intros Hr. destruct r; try reflexivity. by destruct (Hr id u). Qed.

(** C10. With the hooks of [BaseService], [findOne] does not return what
    the code without the hook call returns.  On a cache miss for an entity
    [e] of the collection the service returns the list [[e]], the promise
    of [onView] being returned without [await], where the code with the
    hook call removed returns [e]; both reach the same world. *)
Theorem unhooked_findOne_differs {P : Platform} (faults : call → option exn)
    (id : string) (u : user) (e : doc) (w : world) :
  isValidObjectId id = true →
  db w !! castObjectId id = Some e →
  cache w !! findOne_cacheKey id = None →
  faults (CacheGet (findOne_cacheKey id)) = None →
  faults (DbFindById id) = None →
  faults (CacheSet (findOne_cacheKey id) (VDoc e)) = None →
  ∃ w1,
    run faults (H:=BaseHooks) (FindOne id u) w = (Ok (Found (VDocs [e])), w1) ∧
    Unhooked.run faults (FindOne id u) w = (Ok (Found (VDoc e)), w1) ∧
    Found (VDocs [e]) ≠ Found (VDoc e).
Proof.
  intros Ev Ed Ec F1 F2 F3.
  destruct (findOne_miss faults id u e w Ev Ed Ec F1 F2 F3) as (w1 & E1 & E2 & _).
  exists w1. unfold run, Unhooked.run, fmap, M_fmap, mbind, M_bind.
  rewrite E1, E2. by repeat split.
Qed.

Lemma unhooked_findOne_differs_witness :
  ∃ w1,
    run (P:=Demo.platform) (H:=BaseHooks) Demo.healthy
      (FindOne Demo.id1 Demo.alice) Demo.w_ann
    = (Ok (Found (VDocs [Demo.ann])), w1) ∧
    Unhooked.run (P:=Demo.platform) Demo.healthy
      (FindOne Demo.id1 Demo.alice) Demo.w_ann
    = (Ok (Found (VDoc Demo.ann)), w1) ∧
    Found (VDocs [Demo.ann]) ≠ Found (VDoc Demo.ann).
Proof.
  apply (unhooked_findOne_differs (P:=Demo.platform) Demo.healthy
           Demo.id1 Demo.alice Demo.ann Demo.w_ann);
    vm_compute; reflexivity.
Defined.

(** * Further properties of the operations *)

(** ** More ways to run the code *)

(** The service calls opened up, the hooks left as they are. *)
Ltac unfold_calls :=
  unfold run, search, create, update, remove, softRemove, findAll, findOne,
    logActivity, activityLogService_logActivity, console_error,
    eventEmitter_emit, getCached, setCached, delCache, model_new, entity_save,
    findById, findByIdAndUpdate, findByIdAndDelete, countDocuments, find,
    external, fmap, M_fmap, mbind, M_bind, mret, M_ret, try_catch, throw,
    gets, modify in *.

(** Every branch of a run: split on every test the code makes. *)
Ltac follow_every faults :=
  repeat (cbn;
    match goal with
    | |- context [isValidObjectId ?i] =>
        let Eq := fresh "Ev" in destruct (isValidObjectId i) eqn:Eq
    | |- context [truthy ?x] =>
        let Eq := fresh "Et" in destruct (truthy x) eqn:Eq
    | |- context [faults ?c] =>
        let Eq := fresh "Ef" in destruct (faults c) eqn:Eq
    | |- context [match get_field "_id" ?e with _ => _ end] =>
        let Eq := fresh "Ei" in destruct (get_field "_id" e) as [[]|] eqn:Eq
    | |- context [@lookup _ _ _ _ ?k ?m] =>
        let Eq := fresh "El" in destruct (m !! k) eqn:Eq
    end);
  cbn.

(** Follow a run to whatever end it has. *)
Ltac follow_any faults E :=
  repeat (cbn in E;
    match type of E with
    | context [isValidObjectId ?i] =>
        let Eq := fresh "Ev" in destruct (isValidObjectId i) eqn:Eq
    | context [truthy ?x] =>
        let Eq := fresh "Et" in destruct (truthy x) eqn:Eq
    | context [faults ?c] =>
        let Eq := fresh "Ef" in destruct (faults c) eqn:Eq
    | context [match get_field "_id" ?e with _ => _ end] =>
        let Eq := fresh "Ei" in destruct (get_field "_id" e) as [[]|] eqn:Eq
    | context [@lookup _ _ _ _ ?k ?m] =>
        let Eq := fresh "El" in destruct (m !! k) eqn:Eq
    end);
  cbn in E; simplify_eq; cbn.

Lemma bind_Ok_inv {A B} (m : M A) (f : A → M B) (w w' : world) (b : B) :
  (m ≫= f) w = (Ok b, w') → ∃ a w1, m w = (Ok a, w1) ∧ f a w1 = (Ok b, w').
Proof.
  unfold mbind, M_bind.
  destruct (m w) as [[a|e] w1]; intros E; [eauto | discriminate E].
Qed.

Lemma try_catch_Ok_inv {A} (m : M A) (h : exn → exn) (w w' : world) (a : A) :
  try_catch m (λ e, throw (h e)) w = (Ok a, w') → m w = (Ok a, w').
Proof.
  unfold try_catch, throw.
  destruct (m w) as [[a1|e] w1]; intros E; by simplify_eq.
Qed.

Lemma emit_Ok_inv {P : Platform} (faults : call → option exn) (n : string)
    (entity : option doc) (u : user) {B} (k : unit → M B) (w w' : world)
    (b : B) :
  (eventEmitter_emit faults n entity u ≫= k) w = (Ok b, w') →
  faults (Emit (Build_event n entity u)) = None.
Proof.
  intros E. apply bind_Ok_inv in E as (? & ? & E & _).
  unfold eventEmitter_emit, external in E.
  by destruct (faults (Emit _)).
Qed.

(** Walk down a successful run to its [emit]. *)
Ltac peel E :=
  repeat match type of E with
    | (eventEmitter_emit _ _ _ _ ≫= _) _ = (Ok _, _) => fail 1
    | (_ ≫= _) _ = (Ok _, _) =>
        let E' := fresh "E" in
        apply bind_Ok_inv in E as (? & ? & E' & E); clear E'
    | (match ?x with _ => _ end) _ = (Ok _, _) =>
        destruct x; [|discriminate E]
    end.

Lemma prefix_app (p s : string) : String.prefix p (p ++ s) = true.
Proof.
  induction p as [|a p IH]; [by destruct s|].
  change (String.prefix (String a p) (String a (p ++ s)) = true). simpl.
  destruct (Ascii.ascii_dec a a); [exact IH | done].
Qed.

Lemma findAll_key_prefix {P : Platform} (filter : json) (page limit : Z)
    (sort : doc) :
  String.prefix (collectionName ++ "-findAll-")
    (findAll_cacheKey filter page limit sort) = true.
Proof.
  unfold findAll_cacheKey. rewrite <- string_app_assoc. apply prefix_app.
Qed.

(** ** Errors *)

(** X1. Whatever the hooks and the dependencies do, [create], [update],
    [remove], [softRemove] and [search] raise two errors only: the
    bad-request error, for an identifier that is not valid and with the
    world untouched, and the internal-server error with the message of the
    operation. *)
Theorem wrapped_operations_raise_two_errors {P : Platform} {H : Hooks}
    (faults : call → option exn) (r : request) (w w' : world) (e : exn) :
  wholly_wrapped r = true →
  run faults r w = (Throw e, w') →
  (e = BadRequestException "Invalid ID format" ∧ w' = w ∧
   ∃ id, request_id r = Some id ∧ isValidObjectId id = false) ∨
  e = InternalServerErrorException (failure_message r).
Proof.
  intros Hw E. destruct r; try discriminate Hw.
  all: apply bind_ret_throw_inv in E.
  all: unfold create, update, remove, softRemove, search in E.
  all: try (destruct (isValidObjectId id) eqn:Ev; cbn [negb] in E;
            [| unfold throw in E; simplify_eq; left; eauto]).
  all: apply try_catch_throw_inv in E; by right.
Qed.

Lemma wrapped_operations_raise_two_errors_witness :
  let r := Create [("name", JStr "Bob")] Demo.alice in
  let res := run (P:=Demo.platform) (H:=Overrides.vetoing) Demo.healthy r
               Demo.w_ann in
  ∃ e, res.1 = Throw e ∧
       e = InternalServerErrorException "Error creating entity".
Proof.
  intros r res.
  assert (E : res = (Throw (InternalServerErrorException
                              "Error creating entity"), res.2))
    by (vm_compute; reflexivity).
  destruct (wrapped_operations_raise_two_errors (P:=Demo.platform)
              (H:=Overrides.vetoing) Demo.healthy r Demo.w_ann res.2 _
              eq_refl E) as [(Hb & _) | Hi]; [discriminate Hb|].
  eexists. split; [rewrite E; reflexivity | exact Hi].
Defined.

(** X2. The errors of the two reads that are not wholly wrapped.  [findAll]
    raises its internal-server error, the error of [onFinding], or the
    error of the cache lookup.  [findOne] raises the bad-request error (for
    an identifier that is not valid), its internal-server error, the error
    of the cache lookup, or the error with which [onView] rejects the
    entity found. *)
Theorem read_errors {P : Platform} {H : Hooks} (faults : call → option exn)
    (id : string) (filter : json) (page limit : Z) (sort : doc) (u : user)
    (w w' : world) (e : exn) :
  (findAll faults filter page limit sort u w = (Throw e, w') →
   e = InternalServerErrorException "Error fetching entities" ∨
   onFinding filter u w = (Throw e, w') ∨
   ∃ condition w0, onFinding filter u w = (Ok condition, w0) ∧
     faults (CacheGet (findAll_cacheKey condition page limit sort)) = Some e) ∧
  (findOne faults id u w = (Throw e, w') →
   (e = BadRequestException "Invalid ID format" ∧ isValidObjectId id = false) ∨
   e = InternalServerErrorException "Error fetching entity" ∨
   faults (CacheGet (findOne_cacheKey id)) = Some e ∨
   ∃ entity w1, db w !! castObjectId id = Some entity ∧
     onView [entity] u w1 = (Throw e, w')).
Proof.
  split; intros E.
  - unfold findAll, mbind, M_bind in E.
    destruct (onFinding filter u w) as [[condition|e0] w0] eqn:Eh;
      [| simplify_eq; auto].
    fold (findAll_cacheKey condition page limit sort) in E.
    unfold getCached, external in E.
    destruct (faults (CacheGet _)) eqn:Ef; cbn in E; [simplify_eq; eauto 6|].
    destruct (cache w0 !! _); [discriminate E|].
    apply try_catch_throw_inv in E. auto.
  - unfold findOne, findOne_cacheKey in *.
    destruct (isValidObjectId id) eqn:Ev; cbn [negb] in E;
      [| unfold throw in E; simplify_eq; auto].
    unfold_calls.
    destruct (faults (CacheGet _)) eqn:Ef; cbn in E; [simplify_eq; auto|].
    destruct (cache w !! _); [discriminate E|].
    destruct (faults (DbFindById id)) eqn:Ef2; cbn in E; [simplify_eq; auto|].
    destruct (db w !! castObjectId id) as [entity|] eqn:Ed; cbn in E;
      [|simplify_eq; auto].
    destruct (faults (CacheSet _ _)) eqn:Ef3; cbn in E; [simplify_eq; auto|].
    destruct (faults (AuditLog _)) eqn:Ef4; cbn in E.
    all: match type of E with
         | context [onView ?l ?u ?w1] =>
             destruct (onView l u w1) as [[r|e1] w2] eqn:Eo
         end; simplify_eq; eauto 8.
Qed.

Lemma read_errors_witness :
  let res := findAll (P:=Demo.platform) (H:=Overrides.vetoing) Demo.healthy
               (JObj []) 1 10 [] Demo.alice Demo.w_ann in
  res.1 = Throw (Error "not allowed") ∧
  @onFinding Overrides.vetoing (JObj []) Demo.alice Demo.w_ann
  = (Throw (Error "not allowed"), res.2).
Proof.
  intros res.
  assert (E : res = (Throw (Error "not allowed"), res.2))
    by (vm_compute; reflexivity).
  destruct (read_errors (P:=Demo.platform) (H:=Overrides.vetoing) Demo.healthy
              Demo.id1 (JObj []) 1 10 [] Demo.alice Demo.w_ann res.2
              (Error "not allowed")) as (T & _).
  destruct (T E) as [Hi | [Hf | (c & w0 & _ & Hc)]];
    [discriminate Hi | | discriminate Hc].
  split; [rewrite E; reflexivity | exact Hf].
Defined.

Lemma findAll_lookup_fault {P : Platform} {H : Hooks}
    (faults : call → option exn) (filter : json) (page limit : Z) (sort : doc)
    (u : user) (w w0 : world) (condition : json) (e : exn) :
  onFinding filter u w = (Ok condition, w0) →
  faults (CacheGet (findAll_cacheKey condition page limit sort)) = Some e →
  findAll faults filter page limit sort u w
  = (Throw e,
     record_call (CacheGet (findAll_cacheKey condition page limit sort)) w0).
Proof.
  intros Eh Ef. unfold findAll, findAll_cacheKey in *.
  unfold mbind, M_bind, getCached, external. rewrite Eh. by rewrite Ef.
Qed.

(** X3. What is outside the [try] blocks reaches the caller as it is.  An
    error of the cache lookup comes out of [findOne] and [findAll]
    unchanged, and so does an error of [onFinding] out of [findAll];
    [search], which wraps its [findAll], turns the same error of the cache
    into its internal-server error. *)
Theorem unwrapped_errors_reach_the_caller {P : Platform} {H : Hooks}
    (faults : call → option exn) (id query : string) (filter : json)
    (page limit : Z) (sort : doc) (u : user) (w w0 : world)
    (condition : json) (e : exn) :
  (isValidObjectId id = true →
   faults (CacheGet (findOne_cacheKey id)) = Some e →
   findOne faults id u w
   = (Throw e, record_call (CacheGet (findOne_cacheKey id)) w)) ∧
  (onFinding filter u w = (Throw e, w0) →
   findAll faults filter page limit sort u w = (Throw e, w0)) ∧
  (onFinding filter u w = (Ok condition, w0) →
   faults (CacheGet (findAll_cacheKey condition page limit sort)) = Some e →
   findAll faults filter page limit sort u w
   = (Throw e,
      record_call (CacheGet (findAll_cacheKey condition page limit sort)) w0)) ∧
  (onFinding (text_filter query) u w = (Ok condition, w0) →
   faults (CacheGet (findAll_cacheKey condition page limit [])) = Some e →
   search faults query page limit u w
   = (Throw (InternalServerErrorException "Error searching entities"),
      record_call (CacheGet (findAll_cacheKey condition page limit [])) w0)).
Proof.
  repeat apply conj.
  - intros Ev Ef. unfold findOne, findOne_cacheKey in *. rewrite Ev. cbn [negb].
    unfold mbind, M_bind, getCached, external. by rewrite Ef.
  - intros Eh. unfold findAll, mbind, M_bind. by rewrite Eh.
  - apply findAll_lookup_fault.
  - intros Eh Ef. apply search_masks_findAll_failure with (e := e).
    by apply findAll_lookup_fault.
Qed.

Lemma unwrapped_errors_reach_the_caller_witness :
  (findOne (P:=Demo.platform) (H:=BaseHooks) Overrides.cache_down
     Demo.id1 Demo.alice Demo.w_ann).1 = Throw (Error "cache unavailable") ∧
  (search (P:=Demo.platform) (H:=BaseHooks) Overrides.cache_down
     "Ann" 1 10 Demo.alice Demo.w_ann).1
  = Throw (InternalServerErrorException "Error searching entities").
Proof.
  destruct (unwrapped_errors_reach_the_caller (P:=Demo.platform)
              (H:=BaseHooks) Overrides.cache_down Demo.id1 "Ann" (JObj [])
              1 10 [] Demo.alice Demo.w_ann Demo.w_ann (text_filter "Ann")
              (Error "cache unavailable")) as (T1 & _ & _ & T4).
  split.
  - rewrite T1; [reflexivity | vm_compute; reflexivity | reflexivity].
  - rewrite T4; reflexivity.
Defined.

(** X4. [findOne] caches the entity as it came from the store, before
    [onView] runs.  On a cache miss for an entity of the collection, the
    caller gets whatever [onView] makes of the entity, a list or an error;
    the next [findOne] of that identifier, by any user, is answered from
    the cache with the stored entity, [onView] not being asked.  The hook
    is any hook that leaves the cache alone. *)
Theorem findOne_caches_before_onView {P : Platform} {H : Hooks}
    (faults : call → option exn) (id : string) (u u' : user) (w : world)
    (entity : doc) :
  isValidObjectId id = true →
  db w !! castObjectId id = Some entity →
  cache w !! findOne_cacheKey id = None →
  faults (CacheGet (findOne_cacheKey id)) = None →
  faults (DbFindById id) = None →
  faults (CacheSet (findOne_cacheKey id) (VDoc entity)) = None →
  (∀ w1, cache (onView [entity] u w1).2 = cache w1) →
  ∃ w1,
    findOne faults id u w = (VDocs <$> onView [entity] u) w1 ∧
    findOne faults id u' (findOne faults id u w).2
    = (Ok (VDoc entity),
       record_call (CacheGet (findOne_cacheKey id)) (findOne faults id u w).2).
Proof.
  intros Ev Ed Ec F1 F2 F3 Hview.
  assert (∃ w1, findOne faults id u w = (VDocs <$> onView [entity] u) w1 ∧
                cache w1 !! findOne_cacheKey id = Some (VDoc entity))
    as (w1 & E1 & Hc1).
  { unfold findOne, findOne_cacheKey in *. rewrite Ev. cbn [negb]. unfold_calls.
    rewrite F1. cbn. rewrite Ec, F2. cbn. rewrite Ed, F3. cbn.
    destruct (faults (AuditLog _)); cbn;
      (eexists; split; [reflexivity|]; cbn; apply lookup_insert_eq). }
  exists w1. split; [exact E1|].
  apply findOne_hit; [done | done |].
  rewrite E1. unfold fmap, M_fmap, mbind, M_bind, mret, M_ret.
  specialize (Hview w1).
  destruct (onView [entity] u w1) as [[l|e] w2]; cbn in *; by rewrite Hview.
Qed.

Lemma findOne_caches_before_onView_witness :
  (findOne (P:=Demo.platform) (H:=Overrides.forbidding_view) Demo.healthy
     Demo.id1 Demo.alice Demo.w_ann).1 = Throw (Error "forbidden") ∧
  (findOne (P:=Demo.platform) (H:=Overrides.forbidding_view) Demo.healthy
     Demo.id1 None
     (findOne (P:=Demo.platform) (H:=Overrides.forbidding_view) Demo.healthy
        Demo.id1 Demo.alice Demo.w_ann).2).1 = Ok (VDoc Demo.ann).
Proof.
  assert (Hview : ∀ w1,
            cache (@onView Overrides.forbidding_view [Demo.ann] Demo.alice w1).2
            = cache w1) by (intros w1; reflexivity).
  destruct (findOne_caches_before_onView (P:=Demo.platform)
              (H:=Overrides.forbidding_view) Demo.healthy
              Demo.id1 Demo.alice None Demo.w_ann Demo.ann
              ltac:(vm_compute; reflexivity) ltac:(vm_compute; reflexivity)
              ltac:(vm_compute; reflexivity) eq_refl eq_refl eq_refl Hview)
    as (w1 & E1 & E2).
  split; [rewrite E1; reflexivity | rewrite E2; reflexivity].
Defined.

(** ** Events and the store *)

(** X5. Events follow success.  A call that throws emits nothing; a
    successful [create], [update] or [remove] emits exactly one event,
    '<model>.saved' with the entity returned or '<model>.deleted' with the
    entity as it was found, and the user; every other successful call
    emits nothing. *)
Theorem events_follow_success {P : Platform} (faults : call → option exn)
    (r : request) (w : world) :
  match run faults (H:=BaseHooks) r w with
  | (Ok rep, w') => events w' = (events w ++ emitted r rep w)%list
  | (Throw _, w') => events w' = events w
  end.
Proof.
  destruct r; unfold emitted, stamped; unfold_service.
  all: follow_every faults.
  all: rewrite ?app_nil_r; try reflexivity.
  all: by rewrite El.
Qed.

(** X6. The event emitter is declared without an injection decorator and
    is not set by the constructor.  Where every [emit] throws, no
    [create], [update] or [remove] ever returns, whatever the hooks and
    the other dependencies do. *)
Theorem without_emitter_no_mutation_succeeds {P : Platform} {H : Hooks}
    (faults : call → option exn) (r : request) (w w' : world) (rep : reply) :
  (∀ ev, faults (Emit ev) ≠ None) →
  emits r = true →
  run faults r w ≠ (Ok rep, w').
Proof.
  intros Hemit Hr E. destruct r; try discriminate Hr.
  all: unfold run, fmap, M_fmap in E.
  all: apply bind_Ok_inv in E as (? & ? & E & _).
  all: unfold create, update, remove in E.
  all: try (destruct (isValidObjectId id); cbn [negb] in E; [|discriminate E]).
  all: apply (try_catch_Ok_inv _ (λ _, _)) in E.
  all: cbv zeta in E; peel E.
  all: try (apply emit_Ok_inv in E; by apply Hemit in E).
  unfold eventEmitter_emit, external in E.
  destruct (faults (Emit _)) eqn:Ef; [discriminate E | by apply Hemit in Ef].
Qed.

Lemma without_emitter_no_mutation_succeeds_witness :
  (∀ ev, Overrides.no_emitter (Emit ev) ≠ None) ∧
  ∀ rep w',
    run (P:=Demo.platform) (H:=BaseHooks) Overrides.no_emitter
      (Update Demo.id1 [("name", JStr "Anna")] Demo.alice) Demo.w_ann
    ≠ (Ok rep, w').
Proof.
  assert (He : ∀ ev, Overrides.no_emitter (Emit ev) ≠ None)
    by (intros ev; discriminate).
  split; [exact He|]. intros rep w'.
  exact (without_emitter_no_mutation_succeeds (P:=Demo.platform)
           (H:=BaseHooks) Overrides.no_emitter
           (Update Demo.id1 [("name", JStr "Anna")] Demo.alice)
           Demo.w_ann w' rep He eq_refl).
Defined.

(** X7. What the database accepted stays, however the call ends.  After
    [create], [update] and [remove] the collection is what the one write
    of the operation left ([save] of the document built from the stamped
    data, [findByIdAndUpdate] with the stamped data, [findByIdAndDelete]),
    also when the call then throws (a cache that fails to invalidate, an
    emitter that is not there): nothing is rolled back, and the service
    writes nothing else. *)
Theorem store_change_outlives_failure {P : Platform}
    (faults : call → option exn) (id : string) (data : doc) (u : user)
    (w : world) :
  db (create faults (H:=BaseHooks) data u w).2
  = db (entity_save faults
          (new_document (stamped "createdBy" u data) (db w)) w).2 ∧
  (isValidObjectId id = true →
   db (update faults (H:=BaseHooks) id data u w).2
   = db (findByIdAndUpdate faults id (stamped "updatedBy" u data) w).2) ∧
  (isValidObjectId id = true → faults (DbFindById id) = None →
   db (remove faults (H:=BaseHooks) id u w).2
   = db (findByIdAndDelete faults id w).2).
Proof.
  unfold stamped. repeat apply conj.
  - destruct (create faults (H:=BaseHooks) data u w) as [o w'] eqn:E. cbn.
    unfold_service. follow_any faults E.
    all: rewrite ?El; reflexivity.
  - intros Hv.
    destruct (update faults (H:=BaseHooks) id data u w) as [o w'] eqn:E. cbn.
    unfold_service. follow_any faults E.
    all: rewrite ?El; first [congruence | reflexivity].
  - intros Hv Hf1.
    destruct (remove faults (H:=BaseHooks) id u w) as [o w'] eqn:E. cbn.
    unfold_service. follow_any faults E.
    all: rewrite ?El; first [congruence | reflexivity].
Qed.

Lemma store_change_outlives_failure_witness :
  let res := update (P:=Demo.platform) (H:=BaseHooks) Overrides.no_emitter
               Demo.id1 [("name", JStr "Anna")] Demo.alice Demo.w_ann in
  res.1 = Throw (InternalServerErrorException "Error updating entity") ∧
  db res.2 !! Demo.id1
  = Some [("_id", JStr Demo.id1); ("name", JStr "Anna");
          ("updatedBy", JStr "u1")].
Proof.
  intros res.
  destruct (store_change_outlives_failure (P:=Demo.platform)
              Overrides.no_emitter Demo.id1 [("name", JStr "Anna")]
              Demo.alice Demo.w_ann) as (_ & Tu & _).
  split; [vm_compute; reflexivity|].
  unfold res. rewrite Tu; vm_compute; reflexivity.
Defined.

(** X8. A mutation of an identifier that names no document changes
    nothing.  For a valid identifier whose ObjectId has no entity in the
    collection, [update], [remove] and [softRemove] leave the collection,
    the cache, the audit log, the events and the console as they were: the
    database was asked, and that is all. *)
Theorem missing_id_changes_nothing {P : Platform} (faults : call → option exn)
    (r : request) (id : string) (w : world) :
  is_read r = false →
  request_id r = Some id →
  isValidObjectId id = true →
  db w !! castObjectId id = None →
  let w' := (run faults (H:=BaseHooks) r w).2 in
  db w' = db w ∧ cache w' = cache w ∧ auditLog w' = auditLog w ∧
  events w' = events w ∧ console w' = console w.
Proof.
  intros Hr Hid Ev Ed. destruct r; try discriminate Hr; try discriminate Hid.
  all: injection Hid as ->.
  all: unfold_service; rewrite Ev; cbn.
  all: follow_goal faults; rewrite ?Ed; cbn; by repeat split.
Qed.

Lemma missing_id_changes_nothing_witness :
  let w' := (run (P:=Demo.platform) (H:=BaseHooks) Demo.healthy
               (Remove Demo.id9 Demo.alice) Demo.w_ann_cached).2 in
  db w' = db Demo.w_ann_cached ∧ cache w' = cache Demo.w_ann_cached ∧
  auditLog w' = [] ∧ events w' = [] ∧ console w' = [].
Proof.
  exact (missing_id_changes_nothing (P:=Demo.platform) Demo.healthy
           (Remove Demo.id9 Demo.alice) Demo.id9 Demo.w_ann_cached
           eq_refl eq_refl ltac:(vm_compute; reflexivity)
           ltac:(vm_compute; reflexivity)).
Defined.

(** X9. A read writes to its own cache entry and nowhere else.  However
    [findAll], [findOne] and [search] end, the collection and the emitted
    events are as before, and so is every cache entry but the one under
    the key of the read. *)
Theorem reads_touch_one_cache_entry {P : Platform} (faults : call → option exn)
    (r : request) (w : world) :
  is_read r = true →
  db (run faults (H:=BaseHooks) r w).2 = db w ∧
  events (run faults (H:=BaseHooks) r w).2 = events w ∧
  ∀ key, read_key r ≠ Some key →
    cache (run faults (H:=BaseHooks) r w).2 !! key = cache w !! key.
Proof.
  intros Hr. destruct r; try discriminate Hr.
  all: unfold read_key, findAll_cacheKey, findOne_cacheKey, text_filter.
  all: unfold_service.
  all: follow_every faults.
  all: repeat split; try reflexivity.
  all: intros key Hk; rewrite lookup_insert_ne; [reflexivity | congruence].
Qed.

Lemma reads_touch_one_cache_entry_witness :
  let w' := (run (P:=Demo.platform) (H:=BaseHooks) Demo.healthy
               (FindAll (JObj []) 1 10 [] Demo.alice) Demo.w_ann_cached).2 in
  db w' = db Demo.w_ann_cached ∧ events w' = [] ∧
  cache w' !! findOne_cacheKey (P:=Demo.platform) Demo.id1
  = Some (VDoc Demo.ann).
Proof.
  intros w'.
  destruct (reads_touch_one_cache_entry (P:=Demo.platform) Demo.healthy
              (FindAll (JObj []) 1 10 [] Demo.alice) Demo.w_ann_cached eq_refl)
    as (Hd & He & Hc).
  split; [exact Hd|]. split; [exact He|].
  unfold w'. rewrite Hc; [vm_compute; reflexivity|].
  vm_compute. discriminate.
Defined.

(** X10. An operation on one identifier touches no other document:
    however [update], [remove], [softRemove] or [findOne] of an identifier
    ends, the document under any ObjectId other than the one the
    identifier is cast to is as it was. *)
Theorem other_documents_are_untouched {P : Platform}
    (faults : call → option exn) (r : request) (id key : string) (w : world) :
  request_id r = Some id →
  key ≠ castObjectId id →
  db (run faults (H:=BaseHooks) r w).2 !! key = db w !! key.
Proof.
  intros Hid Hne.
  destruct (run faults (H:=BaseHooks) r w) as [o w'] eqn:E. cbn.
  destruct r; try discriminate Hid.
  all: injection Hid as ->.
  all: unfold_service.
  all: follow_any faults E.
  all: rewrite ?lookup_insert_ne, ?lookup_delete_ne by done; reflexivity.
Qed.

Lemma other_documents_are_untouched_witness :
  db (run (P:=Demo.platform) (H:=BaseHooks) Demo.healthy
        (Remove Demo.id9 Demo.alice) Demo.w_ann).2 !! Demo.id1
  = Some Demo.ann.
Proof.
  rewrite (other_documents_are_untouched (P:=Demo.platform) Demo.healthy
             (Remove Demo.id9 Demo.alice) Demo.id9 Demo.id1 Demo.w_ann eq_refl);
    [vm_compute; reflexivity | vm_compute; discriminate].
Defined.

(** ** The audit trail and the stamps *)

(** X11. The audit entry of a successful mutation describes it: 'create'
    names the identifier of the entity returned and carries the data as
    stamped; 'update' names the identifier given and carries the data as
    stamped; 'delete' carries the entity as it was before the deletion;
    'softDelete' carries no changes.  Each names the collection and the
    user, and is the only audit write of the call. *)
Theorem audit_entries_describe_the_mutation {P : Platform}
    (faults : call → option exn) (r : request) (w w' : world) (rep : reply) :
  is_read r = false →
  run faults (H:=BaseHooks) r w = (Ok rep, w') →
  audit_writes (calls_during w w') = audit_of r rep w.
Proof.
  intros Hr E. destruct r; try discriminate Hr.
  all: unfold audit_of, stamped.
  all: unfold_service.
  all: follow faults E.
  all: simplify_eq; cbn.
  all: read_calls; cbn; rewrite ?Et, ?El; reflexivity.
Qed.

Lemma audit_entries_describe_the_mutation_witness :
  let res := run (P:=Demo.platform) (H:=BaseHooks) Demo.healthy
               (Remove Demo.id1 Demo.alice) Demo.w_ann in
  audit_writes (calls_during Demo.w_ann res.2)
  = [Build_audit_entry "delete" Demo.id1 "employees" Demo.alice
       (Some (JObj Demo.ann))].
Proof.
  intros res.
  rewrite (audit_entries_describe_the_mutation (P:=Demo.platform) Demo.healthy
             (Remove Demo.id1 Demo.alice) Demo.w_ann res.2 Void eq_refl);
    vm_compute; reflexivity.
Defined.



(** ** Reads after reads, reads after writes *)

Lemma findAll_hit {P : Platform} (faults : call → option exn)
    (filter : json) (page limit : Z) (sort : doc) (u : user) (w : world)
    (v : value) :
  faults (CacheGet (findAll_cacheKey filter page limit sort)) = None →
  cache w !! findAll_cacheKey filter page limit sort = Some v →
  findAll faults (H:=BaseHooks) filter page limit sort u w
  = (Ok v, record_call (CacheGet (findAll_cacheKey filter page limit sort)) w).
Proof.
  intros Ef Ec. unfold findAll_cacheKey in *. unfold_service.
  rewrite Ef. cbn. by rewrite Ec.
Qed.

Lemma findAll_miss {P : Platform} (faults : call → option exn)
    (filter : json) (page limit : Z) (sort : doc) (u : user) (w : world) :
  let key := findAll_cacheKey filter page limit sort in
  let result :=
    VPage (findMatching filter ((page - 1) * limit) limit sort (db w))
          (countMatching filter (db w)) page limit in
  cache w !! key = None →
  faults (CacheGet key) = None →
  faults (DbCountDocuments filter) = None →
  faults (DbFind filter ((page - 1) * limit) limit sort) = None →
  faults (CacheSet key result) = None →
  ∃ w1,
    findAll faults (H:=BaseHooks) filter page limit sort u w = (Ok result, w1) ∧
    db w1 = db w ∧ cache w1 !! key = Some result.
Proof.
  intros key result Hc F1 F2 F3 F4. subst key result.
  unfold findAll_cacheKey in *. unfold_service.
  rewrite F1. cbn. rewrite Hc, F2. cbn. rewrite F3. cbn. rewrite F4. cbn.
  destruct (faults (AuditLog _)); cbn.
  all: eexists; split; [reflexivity|]; split; [reflexivity|].
  all: cbn; apply lookup_insert_eq.
Qed.

(** X13. [findAll] answers a second call with what it answered the first.
    On a cache miss it returns the page that the database gives for the
    filter, with [skip = (page - 1) * limit], the count, and the page and
    limit as given; the same call again, by the same or by any other
    user, returns the same page from the cache, the lookup being its only
    call.  The cache key does not name the user. *)
Theorem findAll_miss_then_hit {P : Platform} (faults : call → option exn)
    (filter : json) (page limit : Z) (sort : doc) (u u' : user) (w : world) :
  let key := findAll_cacheKey filter page limit sort in
  let result :=
    VPage (findMatching filter ((page - 1) * limit) limit sort (db w))
          (countMatching filter (db w)) page limit in
  cache w !! key = None →
  faults (CacheGet key) = None →
  faults (DbCountDocuments filter) = None →
  faults (DbFind filter ((page - 1) * limit) limit sort) = None →
  faults (CacheSet key result) = None →
  ∃ w1,
    findAll faults (H:=BaseHooks) filter page limit sort u w = (Ok result, w1) ∧
    findAll faults (H:=BaseHooks) filter page limit sort u' w1
    = (Ok result, record_call (CacheGet key) w1).
Proof.
  intros key result Hc F1 F2 F3 F4.
  destruct (findAll_miss faults filter page limit sort u w Hc F1 F2 F3 F4)
    as (w1 & E1 & _ & Hc1).
  exists w1. split; [exact E1|]. by apply findAll_hit.
Qed.

Lemma findAll_miss_then_hit_witness :
  ∃ w1,
    findAll (P:=Demo.platform) (H:=BaseHooks) Demo.healthy
      (JObj []) 1 10 [] Demo.alice Demo.w_ann
    = (Ok (VPage [Demo.ann] 1 1 10), w1) ∧
    (findAll (P:=Demo.platform) (H:=BaseHooks) Demo.healthy
       (JObj []) 1 10 [] None w1).1 = Ok (VPage [Demo.ann] 1 1 10).
Proof.
  destruct (findAll_miss_then_hit (P:=Demo.platform) Demo.healthy
              (JObj []) 1 10 [] Demo.alice None Demo.w_ann
              ltac:(vm_compute; reflexivity) eq_refl eq_refl eq_refl eq_refl)
    as (w1 & E1 & E2).
  exists w1. split; [exact E1 | rewrite E2; reflexivity].
Defined.

(** What a successful [update] leaves. *)
Lemma update_success {P : Platform} (faults : call → option exn)
    (id : string) (data : doc) (u : user) (w w1 : world) (e : doc) :
  update faults (H:=BaseHooks) id data u w = (Ok e, w1) →
  isValidObjectId id = true ∧ db w1 !! castObjectId id = Some e ∧
  cache w1 !! findOne_cacheKey id = None ∧ findAll_keys_gone w1.
Proof.
  intros E.
  destruct (mutations_invalidate_and_emit faults data id u w w1 e)
    as (_ & Hu & _).
  destruct (Hu E) as (Hc & Hall & _).
  unfold_service. follow faults E; simplify_eq; cbn.
  all: repeat split; try done; apply lookup_insert_eq.
Qed.

(** X14. An update is read back.  After a successful [update], whatever
    the cache held before, a [findOne] of the identifier by any user goes
    to the store and returns the updated entity (as a one-element list),
    and no page of [findAll] is left in the cache. *)
Theorem update_is_read_back {P : Platform} (faults : call → option exn)
    (id : string) (data : doc) (u u' : user) (filter : json) (page limit : Z)
    (sort : doc) (w w1 : world) (e : doc) :
  update faults (H:=BaseHooks) id data u w = (Ok e, w1) →
  faults (CacheGet (findOne_cacheKey id)) = None →
  faults (DbFindById id) = None →
  faults (CacheSet (findOne_cacheKey id) (VDoc e)) = None →
  (∃ w2, findOne faults (H:=BaseHooks) id u' w1 = (Ok (VDocs [e]), w2)) ∧
  cache w1 !! findAll_cacheKey filter page limit sort = None.
Proof.
  intros E F1 F2 F3.
  destruct (update_success faults id data u w w1 e E) as (Hv & Hd & Hc & Hall).
  split.
  - destruct (findOne_miss faults id u' e w1 Hv Hd Hc F1 F2 F3) as (w2 & E2 & _).
    by exists w2.
  - apply Hall, findAll_key_prefix.
Qed.

Lemma update_is_read_back_witness :
  let res := update (P:=Demo.platform) (H:=BaseHooks) Demo.healthy
               Demo.id1 [("name", JStr "Anna")] Demo.alice
               Demo.w_ann_cached in
  let anna := [("_id", JStr Demo.id1); ("name", JStr "Anna");
               ("updatedBy", JStr "u1")] in
  res.1 = Ok anna ∧
  (findOne (P:=Demo.platform) (H:=BaseHooks) Demo.healthy
     Demo.id1 None res.2).1 = Ok (VDocs [anna]).
Proof.
  intros res anna.
  assert (E : res = (Ok anna, res.2)) by (vm_compute; reflexivity).
  destruct (update_is_read_back (P:=Demo.platform) Demo.healthy
              Demo.id1 [("name", JStr "Anna")] Demo.alice None (JObj [])
              1 10 [] Demo.w_ann_cached res.2 anna E eq_refl eq_refl eq_refl)
    as ((w2 & E2) & _).
  split; [rewrite E; reflexivity | rewrite E2; reflexivity].
Defined.

(** X15. A soft-deleted record stays visible.  After a successful
    [softRemove], with no entry for the identifier in the cache, [findOne]
    by any user returns the record, marked [isDeleted]: the reads do not
    look at the mark. *)
Theorem soft_deleted_records_stay_visible {P : Platform}
    (faults : call → option exn) (id : string) (u u' : user) (w w1 : world) :
  softRemove faults id u w = (Ok tt, w1) →
  cache w !! findOne_cacheKey id = None →
  faults (CacheGet (findOne_cacheKey id)) = None →
  faults (DbFindById id) = None →
  (∀ v, faults (CacheSet (findOne_cacheKey id) v) = None) →
  ∃ d w2,
    findOne faults (H:=BaseHooks) id u' w1 = (Ok (VDocs [d]), w2) ∧
    get_field "isDeleted" d = Some (JBool true).
Proof.
  intros E Hc F1 F2 F3.
  assert (∃ d, isValidObjectId id = true ∧ db w1 !! castObjectId id = Some d ∧
               cache w1 = cache w ∧
               get_field "isDeleted" d = Some (JBool true))
    as (d & Hv & Hd & Hc1 & Hdel).
  { unfold_service. follow faults E; simplify_eq; cbn.
    all: eexists; split; [done|]; split; [apply lookup_insert_eq|];
      split; [done|].
    all: unfold assign_fields; destruct (defined (userId_opt u)); simpl.
    all: rewrite !get_set_field_ne by done; apply get_set_field_eq. }
  rewrite <- Hc1 in Hc.
  destruct (findOne_miss faults id u' d w1 Hv Hd Hc F1 F2 (F3 _))
    as (w2 & E2 & _).
  by exists d, w2.
Qed.

Lemma soft_deleted_records_stay_visible_witness :
  let w1 := (softRemove (P:=Demo.platform) Demo.healthy
               Demo.id1 Demo.alice Demo.w_ann).2 in
  ∃ d w2,
    findOne (P:=Demo.platform) (H:=BaseHooks) Demo.healthy Demo.id1 None w1
    = (Ok (VDocs [d]), w2) ∧
    get_field "isDeleted" d = Some (JBool true).
Proof.
  intros w1.
  exact (soft_deleted_records_stay_visible (P:=Demo.platform) Demo.healthy
           Demo.id1 Demo.alice None Demo.w_ann w1
           ltac:(vm_compute; reflexivity) ltac:(vm_compute; reflexivity)
           eq_refl eq_refl (λ _, eq_refl)).
Defined.

(** ** Hooks that fail *)

(** X16. A hook that refuses before the store is touched stops the
    operation there.  When [beforeCreate], [beforeUpdate] or [beforeRemove]
    throws, the operation ends in the world the hook left, no write to the
    database, audit log, cache or emitter following (for [remove], the
    lookup of the entity came before the hook); the caller gets the
    internal-server error of the operation, not the error of the hook. *)
Theorem refusing_before_hook_stops_the_write {P : Platform} {H : Hooks}
    (faults : call → option exn) (id : string) (data : doc) (u : user)
    (w w0 : world) (e : exn) :
  (beforeCreate (stamped "createdBy" u data) u w = (Throw e, w0) →
   create faults data u w
   = (Throw (InternalServerErrorException "Error creating entity"), w0)) ∧
  (isValidObjectId id = true →
   beforeUpdate id (stamped "updatedBy" u data) u w = (Throw e, w0) →
   update faults id data u w
   = (Throw (InternalServerErrorException "Error updating entity"), w0)) ∧
  (isValidObjectId id = true →
   faults (DbFindById id) = None →
   beforeRemove (db w !! castObjectId id) u (record_call (DbFindById id) w)
   = (Throw e, w0) →
   remove faults id u w
   = (Throw (InternalServerErrorException "Error removing entity"), w0)).
Proof.
  unfold stamped. repeat apply conj.
  - intros Eh. unfold create, try_catch, mbind, M_bind. by rewrite Eh.
  - intros Ev Eh. unfold update. rewrite Ev. cbn [negb].
    unfold try_catch, mbind, M_bind. by rewrite Eh.
  - intros Ev Ef Eh. unfold remove. rewrite Ev. cbn [negb].
    unfold try_catch, mbind, M_bind, findById, external, gets.
    rewrite Ef. cbn. by rewrite Eh.
Qed.

Lemma refusing_before_hook_stops_the_write_witness :
  remove (P:=Demo.platform) (H:=Overrides.vetoing) Demo.healthy
    Demo.id1 Demo.alice Demo.w_ann
  = (Throw (InternalServerErrorException "Error removing entity"),
     record_call (DbFindById Demo.id1) Demo.w_ann).
Proof.
  destruct (refusing_before_hook_stops_the_write (P:=Demo.platform)
              (H:=Overrides.vetoing) Demo.healthy Demo.id1 [] Demo.alice
              Demo.w_ann (record_call (DbFindById Demo.id1) Demo.w_ann)
              (Error "not allowed")) as (_ & _ & Tr).
  apply Tr; [vm_compute; reflexivity | reflexivity | reflexivity].
Defined.

(** X17. A hook that fails after the store was touched leaves the write.
    When the database has changed the document and [afterUpdate] throws,
    [update] ends with its internal-server error in the world the hook
    left: the document stays changed, and the audit write, the cache
    invalidation and the event do not take place. *)
Theorem failing_after_hook_leaves_the_write {P : Platform} {H : Hooks}
    (faults : call → option exn) (id : string) (data : doc) (u : user)
    (w w1 w2 w0 : world) (processed entity : doc) (e : exn) :
  isValidObjectId id = true →
  beforeUpdate id (stamped "updatedBy" u data) u w = (Ok processed, w1) →
  findByIdAndUpdate faults id processed w1 = (Ok (Some entity), w2) →
  afterUpdate entity u w2 = (Throw e, w0) →
  update faults id data u w
  = (Throw (InternalServerErrorException "Error updating entity"), w0).
Proof.
  intros Ev Eb Ed Ea. unfold stamped in *.
  unfold update. rewrite Ev. cbn [negb].
  unfold try_catch, mbind, M_bind.
  rewrite Eb, Ed. by rewrite Ea.
Qed.

Lemma failing_after_hook_leaves_the_write_witness :
  let res := update (P:=Demo.platform) (H:=Overrides.failing_after)
               Demo.healthy Demo.id1 [("name", JStr "Anna")] Demo.alice
               Demo.w_ann_cached in
  res.1 = Throw (InternalServerErrorException "Error updating entity") ∧
  db res.2 !! Demo.id1
  = Some [("_id", JStr Demo.id1); ("name", JStr "Anna");
          ("updatedBy", JStr "u1")] ∧
  cache res.2 !! findOne_cacheKey (P:=Demo.platform) Demo.id1
  = Some (VDoc Demo.ann) ∧
  auditLog res.2 = [].
Proof.
  intros res.
  set (upd := [("name", JStr "Anna"); ("updatedBy", JStr "u1")]).
  set (anna := assign_fields upd Demo.ann).
  set (w0 := set_db (insert Demo.id1 anna)
               (record_call (DbFindByIdAndUpdate Demo.id1 upd)
                  Demo.w_ann_cached)).
  assert (E : res = (Throw (InternalServerErrorException
                              "Error updating entity"), w0)).
  { apply (failing_after_hook_leaves_the_write (P:=Demo.platform)
             (H:=Overrides.failing_after) Demo.healthy Demo.id1
             [("name", JStr "Anna")] Demo.alice Demo.w_ann_cached
             Demo.w_ann_cached w0 w0 upd anna (Error "mail server down"));
      [vm_compute; reflexivity | reflexivity | vm_compute; reflexivity
      | reflexivity]. }
  rewrite E. repeat split; vm_compute; reflexivity.
Defined.

(** ** The constructor and [EmployeeService] *)

(** A service is built exactly when it is given its model, and
    [EmployeeService] is [BaseService] with nothing overridden. *)
Lemma EmployeeService_is_BaseService (model : option Platform) :
  (EmployeeService_new model
   = Throw (InternalServerErrorException
              "Model not injected properly in BaseService")
   ↔ model = None) ∧
  EmployeeService_hooks = BaseHooks.
Proof.
  split; [|reflexivity].
  unfold EmployeeService_new, BaseService_new.
  destruct model; split; intros E; by simplify_eq.
Qed.
